(** * autofill.js: the window-message listener that fills two form inputs

    A shallow embedding of [src/autofill.js].  The script registers one
    listener for the browser [message] event.  The listener reads the
    message payload, looks two [input] elements up by their [name]
    attribute, writes the payload's [image_id] and [image_url] into them,
    dispatches synthetic [input] and [change] events and shows an alert.

    The embedding has three layers:
    - JavaScript values ([jsval]) with truthiness, property reads and the
      strict comparison against a string literal;
    - the browser as the script sees it ([World]): the document, an ordered
      list of elements, and the chronological trace of everything the script
      does to the outside (console, value writes, event dispatch, alert);
      the assignment [element.value = v] is the [value] setter of an
      [input] element, which converts, sanitizes and may throw;
    - the listener itself ([message_listener]) in a state-and-exception
      monad over [World], statement by statement as in the source. *)

From Stdlib Require Import Floats.
From stdpp Require Import gmap strings list pretty.

(** ** JavaScript values *)

(** The payload of a message is a structured clone: primitives and plain
    data objects, no accessors.  An object is a finite map from property
    names to values. *)
#[warnings="-register-all"]
Inductive jsval : Type :=
  | VUndefined
  | VNull
  | VBool (b : bool)
  | VNum (f : float)
  | VBigInt (z : Z)
  | VStr (s : string)
  | VObj (props : gmap string jsval).

Inductive exn : Type :=
  | TypeError (msg : string)
  | DOMException (name : string).

(** Truthiness, as [if] and [&&] test it: [undefined], [null], [false],
    [0], [-0], [NaN], [0n] and the empty string are falsy. *)
Definition ToBoolean (v : jsval) : bool :=
  match v with
  | VUndefined | VNull => false
  | VBool b => b
  | VNum f => negb (PrimFloat.is_zero f || PrimFloat.is_nan f)
  | VBigInt z => negb (Z.eqb z 0)
  | VStr s => negb (String.eqb s "")
  | VObj _ => true
  end.

(** The property read [v.k].  Reading a property of [undefined] or [null]
    throws a TypeError.  An object yields the property, or [undefined] when
    it has none.  The other primitives are boxed, and the keys this script
    reads ([type], [image_id], [image_url]) are not defined on the built-in
    prototypes, so the read yields [undefined]. *)
Definition Get (v : jsval) (k : string) : exn + jsval :=
  match v with
  | VUndefined => inl (TypeError "Cannot read properties of undefined")
  | VNull => inl (TypeError "Cannot read properties of null")
  | VObj props => inr (default VUndefined (props !! k))
  | VBool _ | VNum _ | VBigInt _ | VStr _ => inr VUndefined
  end.

(** [v === 'lit']: true exactly for the string primitive with the same
    characters; no coercion. *)
Definition strict_eq_str (v : jsval) (lit : string) : bool :=
  match v with
  | VStr s => String.eqb s lit
  | _ => false
  end.

(** ** The document *)

(** An element: its local name, its content attributes, and its [value]
    slot, which holds what [element.value] reads. *)
Record Element : Type := mkElement {
  tagName : string;
  attributes : gmap string string;
  value : jsval
}.

(** The document is the list of its elements in tree order; an element
    reference is a position in that list. *)
Abbreviation Document := (list Element).

(** The selectors of the script have the form [tag[attr="val"]]. *)
Record Selector : Type := mkSelector {
  sel_tag : string;
  sel_attr : string;
  sel_val : string
}.

Definition matches (sel : Selector) (e : Element) : Prop :=
  tagName e = sel_tag sel ∧ attributes e !! sel_attr sel = Some (sel_val sel).

#[global] Instance matches_dec sel e : Decision (matches sel e).
Proof. unfold matches. apply _. Defined.

(** [document.querySelector(sel)]: the first matching element in tree order,
    or [null]. *)
Definition query (sel : Selector) (doc : Document) : option nat :=
  fst <$> list_find (matches sel) doc.


(** ** Input types and value sanitization *)

(** The states of the [type] attribute of an [input] element. *)
Inductive InputType : Type :=
  | Hidden | Text | Search | Tel | Url | Email | Password
  | Date | Month | Week | Time | DatetimeLocal | Number | Range | Color
  | Checkbox | Radio | File | Submit | Image | Reset | Button.

Definition type_keywords : list (string * InputType) :=
  [ ("hidden", Hidden); ("text", Text); ("search", Search); ("tel", Tel);
    ("url", Url); ("email", Email); ("password", Password); ("date", Date);
    ("month", Month); ("week", Week); ("time", Time);
    ("datetime-local", DatetimeLocal); ("number", Number); ("range", Range);
    ("color", Color); ("checkbox", Checkbox); ("radio", Radio);
    ("file", File); ("submit", Submit); ("image", Image); ("reset", Reset);
    ("button", Button) ].

Definition ascii_lowercase (c : Ascii.ascii) : Ascii.ascii :=
  let n := Ascii.nat_of_ascii c in
  if (65 <=? n) && (n <=? 90) then Ascii.ascii_of_nat (n + 32) else c.

Fixpoint lowercase (s : string) : string :=
  match s with
  | EmptyString => EmptyString
  | String c r => String (ascii_lowercase c) (lowercase r)
  end.

Fixpoint keyword_state (kws : list (string * InputType)) (t : string)
    : option InputType :=
  match kws with
  | [] => None
  | (kw, st) :: rest => if String.eqb kw t then Some st else keyword_state rest t
  end.

(** The state of an element's [type] attribute: the keyword is compared
    ASCII case-insensitively; a missing or unknown value means Text. *)
Definition input_type (e : Element) : InputType :=
  match attributes e !! "type" with
  | Some t => default Text (keyword_state type_keywords (lowercase t))
  | None => Text
  end.

(** The mode of the [value] property, by input type. *)
Inductive ValueMode : Type :=
  | ModeValue | ModeDefault | ModeDefaultOn | ModeFilename.

Definition value_mode (t : InputType) : ValueMode :=
  match t with
  | Hidden | Submit | Image | Reset | Button => ModeDefault
  | Checkbox | Radio => ModeDefaultOn
  | File => ModeFilename
  | Text | Search | Tel | Url | Email | Password | Date | Month | Week
  | Time | DatetimeLocal | Number | Range | Color => ModeValue
  end.

(** "Strip newlines": remove every LF and CR. *)
Definition is_newline (c : Ascii.ascii) : bool :=
  let n := Ascii.nat_of_ascii c in (n =? 10) || (n =? 13).

Fixpoint strip_newlines (s : string) : string :=
  match s with
  | EmptyString => EmptyString
  | String c r =>
      if is_newline c then strip_newlines r else String c (strip_newlines r)
  end.

(** "Strip leading and trailing ASCII whitespace": TAB, LF, FF, CR, SPACE. *)
Definition is_ascii_whitespace (c : Ascii.ascii) : bool :=
  let n := Ascii.nat_of_ascii c in
  (n =? 9) || (n =? 10) || (n =? 12) || (n =? 13) || (n =? 32).

Fixpoint strip_leading (s : string) : string :=
  match s with
  | EmptyString => EmptyString
  | String c r => if is_ascii_whitespace c then strip_leading r else s
  end.

Fixpoint strip_trailing (s : string) : string :=
  match s with
  | EmptyString => EmptyString
  | String c r =>
      match strip_trailing r with
      | EmptyString => if is_ascii_whitespace c then EmptyString else String c EmptyString
      | r' => String c r'
      end
  end.

Definition strip_whitespace (s : string) : string :=
  strip_trailing (strip_leading s).

(** ** Events and the trace of effects *)

(** [new Event(type, { bubbles })]. *)
Record Event : Type := mkEvent {
  ev_type : string;
  ev_bubbles : bool
}.

(** An argument of a console call: a value, or an element reference
    (possibly [null]). *)
Inductive arg : Type :=
  | AVal (v : jsval)
  | ANode (n : option nat).

(** What the script does to its environment, in the order it does it.
    [SetValue] records a completed assignment [element.value = v] with the
    value assigned.  [Dispatch] records the target, the event and the
    document as it is when the event fires, which is what a listener of that
    event observes. *)
Inductive effect : Type :=
  | ConsoleLog (args : list arg)
  | ConsoleError (args : list arg)
  | SetValue (target : nat) (v : jsval)
  | Dispatch (target : nat) (ev : Event) (seen : Document)
  | Alert (msg : string).

Record World : Type := mkWorld {
  document : Document;
  trace : list effect
}.

(** The [message] event delivered to the listener. *)
Record MessageEvent : Type := mkMessageEvent {
  data : jsval;
  origin : string;
  lastEventId : string
}.

(** ** The monad of the script: state over [World], with exceptions *)

Inductive completion (A : Type) : Type :=
  | Normal (a : A) (w : World)
  | Throw (e : exn) (w : World).
Arguments Normal {A} a w.
Arguments Throw {A} e w.

Definition M (A : Type) : Type := World → completion A.

#[global] Instance M_ret : MRet M := λ A a w, Normal a w.

#[global] Instance M_bind : MBind M := λ A B k m w,
  match m w with
  | Normal a w' => k a w'
  | Throw e w' => Throw e w'
  end.

Definition emit (e : effect) : M unit :=
  λ w, Normal tt (mkWorld (document w) (trace w ++ [e])).

Definition lift {A : Type} (r : exn + A) : M A :=
  λ w, match r with
       | inl e => Throw e w
       | inr a => Normal a w
       end.

Definition console_log (args : list arg) : M unit := emit (ConsoleLog args).

Definition console_error (args : list arg) : M unit := emit (ConsoleError args).

Definition alert (msg : string) : M unit := emit (Alert msg).

Definition querySelector (sel : Selector) : M (option nat) :=
  λ w, Normal (query sel (document w)) w.

Definition dispatchEvent (i : nat) (ev : Event) : M unit :=
  λ w, Normal tt (mkWorld (document w)
                          (trace w ++ [Dispatch i ev (document w)])).

Definition image_id_selector : Selector :=
  mkSelector "input" "name" "image_id_selected".

Definition image_url_selector : Selector :=
  mkSelector "input" "name" "image_url_selected".

(** The guard [event.data && event.data.type === 'image_selected']: the
    right operand is evaluated only when the left one is truthy. *)
Definition guard (event : MessageEvent) : M bool :=
  if ToBoolean (data event)
  then t ← lift (Get (data event) "type"); mret (strict_eq_str t "image_selected")
  else mret false.

(** ** Observations on a run *)

(** The world in which a run ends, normally or by a throw, and the
    exception it ends with, if any. *)
Definition outcome {A : Type} (c : completion A) : World :=
  match c with
  | Normal _ w => w
  | Throw _ w => w
  end.

Definition thrown {A : Type} (c : completion A) : option exn :=
  match c with
  | Normal _ _ => None
  | Throw x _ => Some x
  end.

(** The value of the guard as a function of the payload alone. *)
Definition is_selection (d : jsval) : bool :=
  ToBoolean d &&
  match Get d "type" with
  | inr t => strict_eq_str t "image_selected"
  | inl _ => false
  end.

(** The effects a run from [w] to [w'] added to the trace. *)
Definition emitted (w w' : World) : list effect :=
  drop (length (trace w)) (trace w').

Definition is_set_value (e : effect) : bool :=
  match e with SetValue _ _ => true | _ => false end.

Definition is_dispatch (e : effect) : bool :=
  match e with Dispatch _ _ _ => true | _ => false end.

Definition is_alert (e : effect) : bool :=
  match e with Alert _ => true | _ => false end.

Definition is_console_error (e : effect) : bool :=
  match e with ConsoleError _ => true | _ => false end.

(** The effects that touch the document: value writes and event dispatch. *)
Definition dom_effects (es : list effect) : list effect :=
  filter (λ e, is_set_value e || is_dispatch e = true) es.

(** The events of type [ty] dispatched on element [i], in order. *)
Definition dispatched (i : nat) (ty : string) (es : list effect) : list Event :=
  omap (λ e, match e with
             | Dispatch target ev _ =>
                 if bool_decide (target = i ∧ ev_type ev = ty) then Some ev else None
             | _ => None
             end) es.

(** The dispatches among the effects, as (target, event) pairs, in order. *)
Definition dispatch_sequence (es : list effect) : list (nat * Event) :=
  omap (λ e, match e with
             | Dispatch target ev _ => Some (target, ev)
             | _ => None
             end) es.

(** The current [value] of the element at position [i], when there is one. *)
Definition value_at (doc : Document) (i : nat) : option jsval :=
  value <$> doc !! i.

(** The console lines every selection message produces before the fields
    are tested. *)
Definition lookup_logs (event : MessageEvent) (f g : option nat) : list effect :=
  [ ConsoleLog [AVal (VStr "Message received:"); AVal (data event)];
    ConsoleLog [AVal (VStr "Processing image selection...")];
    ConsoleLog [AVal (VStr "Image ID field:"); ANode f];
    ConsoleLog [AVal (VStr "Image URL field:"); ANode g] ].

(** What a run emits when it ignores the message, when a field is missing,
    and when it fills the fields and [seen] is the document after both
    writes. *)
Definition ignored_effects (event : MessageEvent) : list effect :=
  [ ConsoleLog [AVal (VStr "Message received:"); AVal (data event)] ].

Definition missing_effects (event : MessageEvent) (f g : option nat) : list effect :=
  lookup_logs event f g ++
  [ ConsoleError [AVal (VStr "Could not find input fields")] ].

Definition success_effects (event : MessageEvent) (i j : nat) (id url : jsval)
    (seen : Document) : list effect :=
  lookup_logs event (Some i) (Some j) ++
  [ SetValue i id;
    SetValue j url;
    Dispatch i (mkEvent "input" true) seen;
    Dispatch i (mkEvent "change" true) seen;
    Dispatch j (mkEvent "input" true) seen;
    Dispatch j (mkEvent "change" true) seen;
    ConsoleLog [AVal (VStr "Fields updated successfully")];
    Alert "✅ Image selected! Fields have been filled." ].

(** How a run that passed the guard and the lookups ends: the exception, if
    any, the document it leaves and the effects it added. *)
Definition finish (w : World) (r : option exn * Document * list effect)
    : completion unit :=
  match r with
  | (Some x, doc, es) => Throw x (mkWorld doc (trace w ++ es))
  | (None, doc, es) => Normal tt (mkWorld doc (trace w ++ es))
  end.

(** ** Sample documents and messages *)

(** A form with the two inputs after an unrelated one. *)
Definition sample_form : Document :=
  [ mkElement "form" {["id" := "order"]} VUndefined;
    mkElement "input" {["name" := "email"]} (VStr "a@b.c");
    mkElement "input" {["name" := "image_id_selected"]} (VStr "");
    mkElement "input" {["name" := "image_url_selected"]} (VStr "") ].

(** The same form without the URL input. *)
Definition sample_form_no_url : Document :=
  [ mkElement "form" {["id" := "order"]} VUndefined;
    mkElement "input" {["name" := "email"]} (VStr "a@b.c");
    mkElement "input" {["name" := "image_id_selected"]} (VStr "") ].

(** The form with hidden inputs, whose [value] lives in the attribute. *)
Definition sample_form_hidden : Document :=
  [ mkElement "form" {["id" := "order"]} VUndefined;
    mkElement "input" {["name" := "email"]} (VStr "a@b.c");
    mkElement "input" {["type" := "hidden"; "name" := "image_id_selected"]}
      (VStr "");
    mkElement "input" {["type" := "hidden"; "name" := "image_url_selected"]}
      (VStr "") ].

(** The form with a file input under the first name. *)
Definition sample_form_file : Document :=
  [ mkElement "form" {["id" := "order"]} VUndefined;
    mkElement "input" {["name" := "email"]} (VStr "a@b.c");
    mkElement "input" {["type" := "file"; "name" := "image_id_selected"]}
      (VStr "");
    mkElement "input" {["name" := "image_url_selected"]} (VStr "") ].

(** A form in which each of the two names occurs twice, and a [textarea]
    carries one of them. *)
Definition sample_form_duplicates : Document :=
  [ mkElement "textarea" {["name" := "image_id_selected"]} (VStr "notes");
    mkElement "input" {["name" := "image_id_selected"]} (VStr "");
    mkElement "input" {["name" := "image_url_selected"]} (VStr "");
    mkElement "input" {["name" := "image_id_selected"]} (VStr "old-id");
    mkElement "input" {["name" := "image_url_selected"]} (VStr "old-url") ].

Definition sample_selection : MessageEvent :=
  mkMessageEvent
    (VObj {[ "type" := VStr "image_selected";
             "image_id" := VStr "img-42";
             "image_url" := VStr "https://cdn.example/42.png" ]})
    "https://picker.example" "".

(** The same three fields with one more, sent from elsewhere. *)
Definition sample_selection_extra : MessageEvent :=
  mkMessageEvent
    (VObj {[ "type" := VStr "image_selected";
             "image_id" := VStr "img-42";
             "image_url" := VStr "https://cdn.example/42.png";
             "caption" := VStr "sunrise" ]})
    "https://elsewhere.example" "7".

(** A second selection, of another image. *)
Definition sample_selection_2 : MessageEvent :=
  mkMessageEvent
    (VObj {[ "type" := VStr "image_selected";
             "image_id" := VStr "img-7";
             "image_url" := VStr "https://cdn.example/7.png" ]})
    "https://picker.example" "".

(** A selection that carries no [image_id]. *)
Definition props_no_id : gmap string jsval :=
  {[ "type" := VStr "image_selected";
     "image_url" := VStr "https://cdn.example/42.png" ]}.

Definition sample_selection_no_id : MessageEvent :=
  mkMessageEvent (VObj props_no_id) "https://picker.example" "".

(** A selection whose [image_id] is an object that has no string form: its
    own [toString] property is not a function. *)
Definition sample_selection_unprintable : MessageEvent :=
  mkMessageEvent
    (VObj {[ "type" := VStr "image_selected";
             "image_id" := VObj {[ "toString" := VNum 1%float ]};
             "image_url" := VStr "https://cdn.example/42.png" ]})
    "https://picker.example" "".

(** A selection whose [image_id] contains a line break. *)
Definition sample_selection_newline : MessageEvent :=
  mkMessageEvent
    (VObj {[ "type" := VStr "image_selected";
             "image_id" := VStr ("a" +:+ String (Ascii.ascii_of_nat 10) "b");
             "image_url" := VStr "https://cdn.example/42.png" ]})
    "https://picker.example" "".

(** A selection whose [image_id] is a number and whose [image_url] is
    [null]. *)
Definition sample_selection_number : MessageEvent :=
  mkMessageEvent
    (VObj {[ "type" := VStr "image_selected";
             "image_id" := VNum 42%float;
             "image_url" := VNull ]})
    "https://picker.example" "".

Definition sample_other : MessageEvent :=
  mkMessageEvent (VObj {[ "type" := VStr "resize"; "height" := VNum 480%float ]})
    "https://picker.example" "".

Definition sample_null : MessageEvent :=
  mkMessageEvent VNull "https://picker.example" "".

Definition fresh (doc : Document) : World := mkWorld doc [].

(** A closed statement needs the two platform functions of the section
    below fixed.  The runs the closed statements are about print no number
    and fill no input whose type has a sanitizer of its own, so they are the
    same for every choice; these two stand in. *)
Definition sample_number_format (f : float) : string := "".

Definition sample_sanitizer (t : InputType) (attrs : gmap string string)
    (s : string) : string := s.

(** ** The value setter and the listener *)

Section Platform.

(** Two functions of the platform are taken as given: the decimal form of a
    number (ECMAScript Number::toString), and the value sanitization
    algorithms of the input types that parse a grammar of their own or
    depend on further attributes (e-mail, date and time, number, range,
    color).  A sanitizer sees the input type, the attributes and the new
    string. *)
Variable NumberToString : float → string.
Variable sanitize_other : InputType → gmap string string → string → string.

(** The conversion of a JavaScript value to the string an [input]'s [value]
    setter receives: [null] becomes the empty string, the other primitives
    their string form.  A plain object is printed by the inherited
    [toString] as "[object Object]"; an own [toString] property, which a
    cloned payload can only hold as data, hides it, and since [valueOf]
    yields no primitive either, the conversion throws a TypeError. *)
Definition ToDOMString (v : jsval) : exn + string :=
  match v with
  | VNull => inr ""
  | VUndefined => inr "undefined"
  | VBool true => inr "true"
  | VBool false => inr "false"
  | VNum f => inr (NumberToString f)
  | VBigInt z => inr (pretty z)
  | VStr s => inr s
  | VObj props =>
      match props !! "toString" with
      | Some _ => inl (TypeError "Cannot convert object to primitive value")
      | None => inr "[object Object]"
      end
  end.

(** The value sanitization algorithm of an input in value mode. *)
Definition sanitize (t : InputType) (attrs : gmap string string) (s : string)
    : string :=
  match t with
  | Text | Search | Tel | Password => strip_newlines s
  | Url => strip_whitespace (strip_newlines s)
  | Email | Date | Month | Week | Time | DatetimeLocal | Number | Range
  | Color => sanitize_other t attrs s
  | Hidden | Checkbox | Radio | File | Submit | Image | Reset | Button => s
  end.

(** The setter of [input.value].  The new value is converted to a string
    first.  In value mode the element's value becomes the sanitized string.
    In the default modes the string is written to the [value] content
    attribute, which is what the property then reads.  A file input accepts
    only the empty string and throws InvalidStateError otherwise. *)
Definition value_setter (e : Element) (v : jsval) : exn + Element :=
  match ToDOMString v with
  | inl x => inl x
  | inr s =>
      match value_mode (input_type e) with
      | ModeValue =>
          inr (mkElement (tagName e) (attributes e)
                 (VStr (sanitize (input_type e) (attributes e) s)))
      | ModeDefault | ModeDefaultOn =>
          inr (mkElement (tagName e) (<["value" := s]> (attributes e)) (VStr s))
      | ModeFilename =>
          if String.eqb s ""
          then inr (mkElement (tagName e) (attributes e) (VStr ""))
          else inl (DOMException "InvalidStateError")
      end
  end.

(** [element.value = v] on the element at position [i] of the document. *)
Definition write_value (i : nat) (v : jsval) (doc : Document) : exn + Document :=
  match doc !! i with
  | Some e =>
      match value_setter e v with
      | inl x => inl x
      | inr e' => inr (<[i := e']> doc)
      end
  | None => inr doc
  end.

Definition set_value (i : nat) (v : jsval) : M unit :=
  λ w, match write_value i v (document w) with
       | inl x => Throw x w
       | inr doc' => Normal tt (mkWorld doc' (trace w ++ [SetValue i v]))
       end.

Definition message_listener (event : MessageEvent) : M unit :=
  console_log [AVal (VStr "Message received:"); AVal (data event)];;
  selected ← guard event;
  if selected : bool then
    console_log [AVal (VStr "Processing image selection...")];;
    imageIdField ← querySelector image_id_selector;
    imageUrlField ← querySelector image_url_selector;
    console_log [AVal (VStr "Image ID field:"); ANode imageIdField];;
    console_log [AVal (VStr "Image URL field:"); ANode imageUrlField];;
    match imageIdField, imageUrlField with
    | Some idField, Some urlField =>
        image_id ← lift (Get (data event) "image_id");
        set_value idField image_id;;
        image_url ← lift (Get (data event) "image_url");
        set_value urlField image_url;;
        dispatchEvent idField (mkEvent "input" true);;
        dispatchEvent idField (mkEvent "change" true);;
        dispatchEvent urlField (mkEvent "input" true);;
        dispatchEvent urlField (mkEvent "change" true);;
        console_log [AVal (VStr "Fields updated successfully")];;
        alert "✅ Image selected! Fields have been filled."
    | _, _ =>
        console_error [AVal (VStr "Could not find input fields")]
    end
  else mret tt.

(** The end of a run that found both fields, as a function of the document:
    a throw at the first assignment leaves the document as it was, a throw
    at the second leaves the first field written, and otherwise both fields
    are written and the events and the alert follow. *)
Definition selection_run (event : MessageEvent) (i j : nat) (id url : jsval)
    (doc : Document) : option exn * Document * list effect :=
  match write_value i id doc with
  | inl x => (Some x, doc, lookup_logs event (Some i) (Some j))
  | inr doc1 =>
      match write_value j url doc1 with
      | inl x => (Some x, doc1, lookup_logs event (Some i) (Some j) ++ [SetValue i id])
      | inr doc2 => (None, doc2, success_effects event i j id url doc2)
      end
  end.

(** An assignment that completes: the element that [doc[i].value = v]
    leaves at position [i]. *)
Definition assigned (doc : Document) (i : nat) (v : jsval) : option Element :=
  e ← doc !! i;
  match value_setter e v with
  | inr e' => Some e'
  | inl _ => None
  end.

(** The string an input holds after its [value] has been set to the string
    [s]: sanitized in value mode, as given in the default modes, and empty
    for a file input (which accepts only the empty string). *)
Definition stored_string (e : Element) (s : string) : string :=
  match value_mode (input_type e) with
  | ModeValue => sanitize (input_type e) (attributes e) s
  | ModeDefault | ModeDefaultOn => s
  | ModeFilename => ""
  end.

(** [D] is [doc] with, at most, the two fields [i] and [j] rewritten by
    earlier assignments: every other element is the same, and the two
    fields react to a new assignment as they did in [doc]. *)
Definition fields_rewritten (i j : nat) (doc D : Document) : Prop :=
  length D = length doc ∧
  (∀ k, k ≠ i → k ≠ j → D !! k = doc !! k) ∧
  (∀ k v, k = i ∨ k = j → assigned D k v = assigned doc k v).

(** ** Basic facts about values and the guard *)

Lemma Get_truthy (d : jsval) (k : string) :
  ToBoolean d = true → ∃ v, Get d k = inr v.
Proof. destruct d; simpl; intros Ht; try discriminate; eauto. Qed.

Lemma Get_nullish_throws (k : string) :
  (∃ e, Get VUndefined k = inl e) ∧ (∃ e, Get VNull k = inl e).
Proof. split; eexists; reflexivity. Qed.

Lemma strict_eq_str_true (v : jsval) (lit : string) :
  strict_eq_str v lit = true ↔ v = VStr lit.
Proof.
  destruct v; simpl; try (split; [discriminate | intros [=]]).
  rewrite String.eqb_eq. split; [intros ->; reflexivity | intros [=]; assumption].
Qed.

Lemma is_selection_true (d : jsval) :
  is_selection d = true ↔ Get d "type" = inr (VStr "image_selected").
Proof.
  unfold is_selection. split.
  - intros [Ht Hs]%andb_prop.
    destruct (Get d "type") as [e | t]; [discriminate |].
    apply strict_eq_str_true in Hs. by subst.
  - intros Hg. rewrite Hg.
    destruct d; simpl in *; try discriminate; reflexivity.
Qed.

Lemma is_selection_object (d : jsval) :
  is_selection d = true →
  ∃ props, d = VObj props ∧ props !! "type" = Some (VStr "image_selected").
Proof.
  intros Hs%is_selection_true.
  destruct d; simpl in Hs; try discriminate.
  exists props. split; [reflexivity |].
  destruct (props !! "type") as [t |]; simpl in Hs; congruence.
Qed.

Lemma guard_pure (event : MessageEvent) (w : World) :
  guard event w = Normal (is_selection (data event)) w.
Proof.
  unfold guard, is_selection.
  destruct (ToBoolean (data event)) eqn:Ht; [| reflexivity].
  destruct (Get_truthy _ "type" Ht) as [t Hg].
  unfold mbind, M_bind, lift, mret, M_ret. rewrite Hg. reflexivity.
Qed.

(** ** Facts about the document *)

Lemma query_Some (sel : Selector) (doc : Document) (i : nat) :
  query sel doc = Some i →
  ∃ e, doc !! i = Some e ∧ matches sel e ∧
       ∀ k e', doc !! k = Some e' → k < i → ¬ matches sel e'.
Proof.
  unfold query. destruct (list_find _ doc) as [[k e] |] eqn:Hf; [| discriminate].
  simpl. intros [= <-]. apply list_find_Some in Hf. exists e. exact Hf.
Qed.

Lemma query_None (sel : Selector) (doc : Document) :
  query sel doc = None ↔ Forall (λ e, ¬ matches sel e) doc.
Proof.
  unfold query. rewrite <- (list_find_None (matches sel)).
  destruct (list_find (matches sel) doc); simpl; split; intros; done.
Qed.

(** The two selectors ask for different values of the same attribute, so
    they never pick the same element. *)
Lemma fields_distinct (doc : Document) (i j : nat) :
  query image_id_selector doc = Some i →
  query image_url_selector doc = Some j →
  i ≠ j.
Proof.
  intros (e & He & [_ Hn] & _)%query_Some (e' & He' & [_ Hn'] & _)%query_Some ->.
  rewrite He in He'. injection He' as <-.
  cbn in Hn, Hn'. rewrite Hn in Hn'. discriminate.
Qed.

Lemma emitted_app (w : World) (doc : Document) (es : list effect) :
  emitted w (mkWorld doc (trace w ++ es)) = es.
Proof. unfold emitted. simpl. apply drop_app_length. Qed.

(** The guard depends on the payload through its [type] field only. *)
Lemma is_selection_agree (d1 d2 : jsval) :
  Get d1 "type" = Get d2 "type" → is_selection d1 = is_selection d2.
Proof.
  intros Heq.
  destruct (is_selection d1) eqn:H1, (is_selection d2) eqn:H2; try reflexivity.
  - apply is_selection_true in H1. rewrite Heq in H1.
    apply is_selection_true in H1. congruence.
  - apply is_selection_true in H2. rewrite <- Heq in H2.
    apply is_selection_true in H2. congruence.
Qed.

Lemma query_in_range (sel : Selector) (doc : Document) (i : nat) :
  query sel doc = Some i → i < length doc.
Proof.
  intros (e & He & _)%query_Some. eapply lookup_lt_Some, He.
Qed.

(** Two documents whose elements match a selector at the same positions
    give the same lookup. *)
Lemma query_ext (sel : Selector) (doc doc' : Document) :
  Forall2 (λ e e', matches sel e ↔ matches sel e') doc doc' →
  query sel doc = query sel doc'.
Proof.
  unfold query. induction 1 as [| e e' doc doc' Hm _ IH]; [reflexivity |].
  cbn. destruct (decide (matches sel e)) as [He | He].
  - rewrite decide_True by (apply Hm, He). reflexivity.
  - rewrite decide_False by (rewrite <- Hm; exact He).
    destruct (list_find (matches sel) doc) as [[? ?] |],
             (list_find (matches sel) doc') as [[? ?] |];
      cbn in *; congruence.
Qed.

(** ** Facts about the value setter *)

Lemma value_setter_tag (e e' : Element) (v : jsval) :
  value_setter e v = inr e' → tagName e' = tagName e.
Proof.
  unfold value_setter. destruct (ToDOMString v) as [x | s]; [discriminate |].
  destruct (value_mode (input_type e)); try (intros [= <-]; reflexivity).
  destruct (String.eqb s ""); [intros [= <-]; reflexivity | discriminate].
Qed.

(** The setter changes no attribute other than [value]. *)
Lemma value_setter_attributes (e e' : Element) (v : jsval) (a : string) :
  value_setter e v = inr e' → a ≠ "value" →
  attributes e' !! a = attributes e !! a.
Proof.
  unfold value_setter. destruct (ToDOMString v) as [x | s]; [discriminate |].
  intros He Ha.
  destruct (value_mode (input_type e)); try (injection He as <-; cbn);
    try reflexivity; try (apply lookup_insert_ne; congruence).
  destruct (String.eqb s ""); [injection He as <-; reflexivity | discriminate].
Qed.

Lemma value_setter_input_type (e e' : Element) (v : jsval) :
  value_setter e v = inr e' → input_type e' = input_type e.
Proof.
  intros He. unfold input_type.
  rewrite (value_setter_attributes e e' v "type" He) by discriminate.
  reflexivity.
Qed.

(** What the setter did before does not matter to the next assignment. *)
Lemma value_setter_again (e e1 : Element) (v1 v2 : jsval) :
  value_setter e v1 = inr e1 → value_setter e1 v2 = value_setter e v2.
Proof.
  intros He. pose proof (value_setter_input_type _ _ _ He) as Hty.
  pose proof (value_setter_tag _ _ _ He) as Htag.
  unfold value_setter in *. rewrite Hty, Htag.
  destruct (ToDOMString v1) as [x1 | s1]; [discriminate |].
  destruct (ToDOMString v2) as [x2 | s2]; [reflexivity |].
  destruct (value_mode (input_type e)).
  - injection He as <-. reflexivity.
  - injection He as <-. cbn. by rewrite insert_insert_eq.
  - injection He as <-. cbn. by rewrite insert_insert_eq.
  - destruct (String.eqb s1 ""); [injection He as <-; reflexivity | discriminate].
Qed.

Lemma value_setter_fixed (e e' : Element) (v : jsval) :
  value_setter e v = inr e' → value_setter e' v = inr e'.
Proof. intros He. rewrite (value_setter_again _ _ _ _ He). exact He. Qed.

Lemma write_value_length (doc doc' : Document) (i : nat) (v : jsval) :
  write_value i v doc = inr doc' → length doc' = length doc.
Proof.
  unfold write_value. destruct (doc !! i) as [e |]; [| by intros [= <-]].
  destruct (value_setter e v); [discriminate |].
  intros [= <-]. apply length_insert.
Qed.

Lemma write_value_other (doc doc' : Document) (i k : nat) (v : jsval) :
  write_value i v doc = inr doc' → k ≠ i → doc' !! k = doc !! k.
Proof.
  unfold write_value. destruct (doc !! i) as [e |]; [| by intros [= <-]].
  destruct (value_setter e v); [discriminate |].
  intros [= <-] Hk. apply list_lookup_insert_ne. congruence.
Qed.

Lemma write_value_at (doc doc' : Document) (i : nat) (v : jsval) (e : Element) :
  write_value i v doc = inr doc' → doc !! i = Some e →
  ∃ e', value_setter e v = inr e' ∧ doc' !! i = Some e'.
Proof.
  unfold write_value. intros Hw He. rewrite He in Hw.
  destruct (value_setter e v) as [x | e']; [discriminate |].
  injection Hw as <-. exists e'. split; [reflexivity |].
  apply list_lookup_insert_eq. eapply lookup_lt_Some, He.
Qed.

Lemma write_value_assigned (doc : Document) (i : nat) (v : jsval) :
  i < length doc →
  match write_value i v doc with
  | inl _ => assigned doc i v = None
  | inr doc' => ∃ e', assigned doc i v = Some e' ∧ doc' = <[i := e']> doc
  end.
Proof.
  intros Hi. destruct (lookup_lt_is_Some_2 doc i Hi) as [e He].
  unfold write_value, assigned. rewrite He. cbn.
  destruct (value_setter e v) as [x | e']; [reflexivity |].
  exists e'. split; reflexivity.
Qed.

(** ** The paths of the listener *)

Ltac run_listener :=
  unfold message_listener, console_log, console_error, alert, emit,
    querySelector, set_value, dispatchEvent, lift,
    mbind, M_bind, mret, M_ret; cbn [document trace].

(** Any payload that fails the guard: one console line, nothing else. *)
Lemma listener_ignored (event : MessageEvent) (w : World) :
  is_selection (data event) = false →
  message_listener event w =
    Normal tt (mkWorld (document w) (trace w ++ ignored_effects event)).
Proof.
  intros Hs. run_listener. rewrite guard_pure, Hs. reflexivity.
Qed.

(** A selection message when a field is missing: the console lines and the
    error, the document untouched. *)
Lemma listener_missing (event : MessageEvent) (w : World) :
  is_selection (data event) = true →
  query image_id_selector (document w) = None ∨
  query image_url_selector (document w) = None →
  message_listener event w =
    Normal tt (mkWorld (document w)
      (trace w ++ missing_effects event
         (query image_id_selector (document w))
         (query image_url_selector (document w)))).
Proof.
  intros Hs Hq. run_listener. rewrite guard_pure, Hs. cbn [document trace].
  unfold missing_effects, lookup_logs.
  destruct (query image_id_selector (document w)) as [i |],
           (query image_url_selector (document w)) as [j |];
    try (destruct Hq; discriminate);
    cbn; rewrite <- ?app_assoc; reflexivity.
Qed.

(** A selection message when both fields exist: the run ends as
    [selection_run] says. *)
Lemma listener_success (event : MessageEvent) (w : World) (i j : nat) :
  is_selection (data event) = true →
  query image_id_selector (document w) = Some i →
  query image_url_selector (document w) = Some j →
  ∃ id url,
    Get (data event) "image_id" = inr id ∧
    Get (data event) "image_url" = inr url ∧
    message_listener event w =
      finish w (selection_run event i j id url (document w)).
Proof.
  intros Hs Hi Hj.
  destruct (is_selection_object _ Hs) as (props & Hd & _).
  exists (default VUndefined (props !! "image_id")),
         (default VUndefined (props !! "image_url")).
  rewrite Hd. cbn [Get]. split; [reflexivity |]. split; [reflexivity |].
  run_listener. rewrite guard_pure, Hs. cbn [document trace].
  rewrite Hi, Hj. unfold selection_run, success_effects, lookup_logs.
  rewrite Hd. cbn [Get document trace].
  destruct (write_value i _ (document w)) as [x | doc1]; cbn [document trace finish].
  { rewrite <- ?app_assoc. reflexivity. }
  destruct (write_value j _ doc1) as [x | doc2]; cbn [document trace finish];
    rewrite <- ?app_assoc; reflexivity.
Qed.

(** Every run takes one of the three paths. *)
Lemma listener_cases (event : MessageEvent) (w : World) :
  (is_selection (data event) = false ∧
   message_listener event w =
     Normal tt (mkWorld (document w) (trace w ++ ignored_effects event))) ∨
  (is_selection (data event) = true ∧
   (query image_id_selector (document w) = None ∨
    query image_url_selector (document w) = None) ∧
   message_listener event w =
     Normal tt (mkWorld (document w)
       (trace w ++ missing_effects event
          (query image_id_selector (document w))
          (query image_url_selector (document w))))) ∨
  (∃ i j id url,
     is_selection (data event) = true ∧
     query image_id_selector (document w) = Some i ∧
     query image_url_selector (document w) = Some j ∧
     Get (data event) "image_id" = inr id ∧
     Get (data event) "image_url" = inr url ∧
     message_listener event w =
       finish w (selection_run event i j id url (document w))).
Proof.
  destruct (is_selection (data event)) eqn:Hs.
  - right.
    destruct (query image_id_selector (document w)) as [i |] eqn:Hi.
    + destruct (query image_url_selector (document w)) as [j |] eqn:Hj.
      * right. destruct (listener_success event w i j Hs Hi Hj)
          as (id & url & Hid & Hurl & Hrun).
        exists i, j, id, url. tauto.
      * left. pose proof (listener_missing event w Hs (or_intror Hj)) as Hrun.
        rewrite Hi, Hj in Hrun. tauto.
    + left. pose proof (listener_missing event w Hs (or_introl Hi)) as Hrun.
      rewrite Hi in Hrun. tauto.
  - left. split; [reflexivity | apply listener_ignored, Hs].
Qed.

(** The three ways a run that found both fields can end, in terms of the
    two assignments. *)
Lemma selection_run_cases (event : MessageEvent) (i j : nat) (id url : jsval)
    (doc : Document) :
  i < length doc → j < length doc → i ≠ j →
  (∃ x, assigned doc i id = None ∧
        selection_run event i j id url doc =
          (Some x, doc, lookup_logs event (Some i) (Some j))) ∨
  (∃ x ei', assigned doc i id = Some ei' ∧ assigned doc j url = None ∧
        selection_run event i j id url doc =
          (Some x, <[i := ei']> doc,
           lookup_logs event (Some i) (Some j) ++ [SetValue i id])) ∨
  (∃ ei' ej', assigned doc i id = Some ei' ∧ assigned doc j url = Some ej' ∧
        selection_run event i j id url doc =
          (None, <[j := ej']> (<[i := ei']> doc),
           success_effects event i j id url (<[j := ej']> (<[i := ei']> doc)))).
Proof.
  intros Hi Hj Hne. unfold selection_run.
  pose proof (write_value_assigned doc i id Hi) as H1.
  destruct (write_value i id doc) as [x | doc1].
  { left. exists x. split; [exact H1 | reflexivity]. }
  destruct H1 as (ei' & Hei & ->). right.
  assert (assigned (<[i := ei']> doc) j url = assigned doc j url) as Heq.
  { unfold assigned. rewrite list_lookup_insert_ne by exact Hne. reflexivity. }
  pose proof (write_value_assigned (<[i := ei']> doc) j url) as H2.
  rewrite length_insert in H2. specialize (H2 Hj). rewrite Heq in H2.
  destruct (write_value j url (<[i := ei']> doc)) as [x | doc2].
  - left. exists x, ei'. repeat split; assumption.
  - right. destruct H2 as (ej' & Hej & ->). exists ei', ej'.
    repeat split; assumption.
Qed.

(** A run that found both fields, spelled out: which assignment failed, if
    any, and the world the run ends in. *)
Lemma listener_found (event : MessageEvent) (w : World) (i j : nat) :
  is_selection (data event) = true →
  query image_id_selector (document w) = Some i →
  query image_url_selector (document w) = Some j →
  ∃ id url,
    Get (data event) "image_id" = inr id ∧
    Get (data event) "image_url" = inr url ∧
    ((∃ x, assigned (document w) i id = None ∧
           message_listener event w =
             Throw x (mkWorld (document w)
                        (trace w ++ lookup_logs event (Some i) (Some j)))) ∨
     (∃ x ei', assigned (document w) i id = Some ei' ∧
           assigned (document w) j url = None ∧
           message_listener event w =
             Throw x (mkWorld (<[i := ei']> (document w))
                        (trace w ++ lookup_logs event (Some i) (Some j)
                                 ++ [SetValue i id]))) ∨
     (∃ ei' ej', assigned (document w) i id = Some ei' ∧
           assigned (document w) j url = Some ej' ∧
           message_listener event w =
             Normal tt (mkWorld (<[j := ej']> (<[i := ei']> (document w)))
                          (trace w ++ success_effects event i j id url
                             (<[j := ej']> (<[i := ei']> (document w))))))).
Proof.
  intros Hs Hi Hj.
  destruct (listener_success event w i j Hs Hi Hj) as (id & url & Hid & Hurl & Hrun).
  exists id, url. split; [exact Hid |]. split; [exact Hurl |].
  destruct (selection_run_cases event i j id url (document w)
              (query_in_range _ _ _ Hi) (query_in_range _ _ _ Hj)
              (fields_distinct _ _ _ Hi Hj))
    as [(x & H1 & Hr) | [(x & ei' & H1 & H2 & Hr) | (ei' & ej' & H1 & H2 & Hr)]];
    rewrite Hr in Hrun; cbn [finish] in Hrun.
  - left. exists x. split; assumption.
  - right. left. exists x, ei'. repeat split; assumption.
  - right. right. exists ei', ej'. repeat split; assumption.
Qed.

(** ** Documents that differ by earlier assignments *)

Lemma assigned_Some (doc : Document) (i : nat) (v : jsval) (e' : Element) :
  assigned doc i v = Some e' →
  ∃ e, doc !! i = Some e ∧ value_setter e v = inr e'.
Proof.
  unfold assigned. destruct (doc !! i) as [e |]; [| discriminate]. cbn.
  destruct (value_setter e v) as [x | e0] eqn:He; [discriminate |].
  intros [= <-]. exists e. split; [reflexivity | exact He].
Qed.

Lemma assigned_insert_ne (doc : Document) (i k : nat) (e : Element) (v : jsval) :
  k ≠ i → assigned (<[i := e]> doc) k v = assigned doc k v.
Proof.
  intros Hk. unfold assigned. rewrite list_lookup_insert_ne by congruence.
  reflexivity.
Qed.

Lemma assigned_insert_eq (doc : Document) (i : nat) (v1 v2 : jsval) (e1 : Element) :
  assigned doc i v1 = Some e1 →
  assigned (<[i := e1]> doc) i v2 = assigned doc i v2.
Proof.
  intros (e & He & Hset)%assigned_Some. unfold assigned.
  rewrite list_lookup_insert_eq by (eapply lookup_lt_Some, He).
  rewrite He. cbn. rewrite (value_setter_again _ _ _ _ Hset). reflexivity.
Qed.

Lemma fields_rewritten_refl (i j : nat) (doc : Document) :
  fields_rewritten i j doc doc.
Proof. repeat split. Qed.

Lemma fields_rewritten_first (i j : nat) (doc : Document) (v : jsval) (e' : Element) :
  assigned doc i v = Some e' → fields_rewritten i j doc (<[i := e']> doc).
Proof.
  intros Ha. split; [apply length_insert |]. split.
  - intros k Hki _. apply list_lookup_insert_ne. congruence.
  - intros k u [-> | ->].
    + eapply assigned_insert_eq, Ha.
    + destruct (decide (j = i)) as [-> | Hne].
      * eapply assigned_insert_eq, Ha.
      * apply assigned_insert_ne, Hne.
Qed.

Lemma fields_rewritten_both (i j : nat) (doc : Document) (v u : jsval)
    (ei' ej' : Element) :
  i ≠ j →
  assigned doc i v = Some ei' → assigned doc j u = Some ej' →
  fields_rewritten i j doc (<[j := ej']> (<[i := ei']> doc)).
Proof.
  intros Hne Hi Hj. split; [by rewrite !length_insert |]. split.
  - intros k Hki Hkj. rewrite !list_lookup_insert_ne by congruence. reflexivity.
  - intros k t [-> | ->].
    + rewrite assigned_insert_ne by exact Hne. eapply assigned_insert_eq, Hi.
    + rewrite list_insert_insert_ne by congruence.
      rewrite assigned_insert_ne by congruence. eapply assigned_insert_eq, Hj.
Qed.

(** Writing both fields of a rewritten document gives what writing them in
    the original gives. *)
Lemma fields_rewritten_overwrite (i j : nat) (doc D : Document) (a b : Element) :
  fields_rewritten i j doc D →
  i < length doc → j < length doc →
  <[j := b]> (<[i := a]> D) = <[j := b]> (<[i := a]> doc).
Proof.
  intros (Hlen & Hother & _) Hi Hj. apply list_eq. intros k.
  destruct (decide (k = j)) as [-> | Hkj].
  { rewrite !list_lookup_insert_eq by (rewrite !length_insert; lia). reflexivity. }
  rewrite !(list_lookup_insert_ne _ j k) by congruence.
  destruct (decide (k = i)) as [-> | Hki].
  { rewrite !list_lookup_insert_eq by lia. reflexivity. }
  rewrite !list_lookup_insert_ne by congruence. apply Hother; assumption.
Qed.

(** A value write does not change what a selector finds, unless the
    selector asks for the [value] attribute. *)
Lemma query_insert_assigned (sel : Selector) (doc : Document) (i : nat)
    (v : jsval) (e' : Element) :
  sel_attr sel ≠ "value" →
  assigned doc i v = Some e' →
  query sel (<[i := e']> doc) = query sel doc.
Proof.
  intros Hattr (e & He & Hset)%assigned_Some.
  rewrite <- (list_insert_id doc i e He) at 2.
  apply query_ext, Forall2_insert.
  - apply Forall_Forall2_diag, Forall_forall. intros; reflexivity.
  - unfold matches. rewrite (value_setter_tag _ _ _ Hset).
    rewrite (value_setter_attributes _ _ _ _ Hset Hattr). reflexivity.
Qed.

(** The document a run leaves is the document it found with, at most, the
    two fields rewritten; the lookups of the script give the same result on
    both. *)
Lemma listener_outcome_fields (event : MessageEvent) (w : World) (i j : nat) :
  query image_id_selector (document w) = Some i →
  query image_url_selector (document w) = Some j →
  fields_rewritten i j (document w) (document (outcome (message_listener event w))) ∧
  query image_id_selector (document (outcome (message_listener event w))) = Some i ∧
  query image_url_selector (document (outcome (message_listener event w))) = Some j.
Proof.
  intros Hi Hj. pose proof (fields_distinct _ _ _ Hi Hj) as Hne.
  assert (∀ d k v e', assigned d k v = Some e' →
            query image_id_selector (<[k := e']> d) = query image_id_selector d ∧
            query image_url_selector (<[k := e']> d) = query image_url_selector d)
    as Hq.
  { intros d k v e' Ha.
    split; eapply query_insert_assigned; try exact Ha; cbn; discriminate. }
  destruct (listener_cases event w)
    as [[_ Hrun] | [(_ & _ & Hrun) | (i' & j' & id & url & Hs & Hi' & Hj' & _)]].
  1, 2: rewrite Hrun; cbn [outcome document];
        split; [apply fields_rewritten_refl | split; assumption].
  destruct (listener_found event w i j Hs Hi Hj)
    as (id' & url' & _ & _ &
        [(x & H1 & Hrun) | [(x & ei' & H1 & H2 & Hrun) | (ei' & ej' & H1 & H2 & Hrun)]]);
    rewrite Hrun; cbn [outcome document].
  - split; [apply fields_rewritten_refl | split; assumption].
  - split; [eapply fields_rewritten_first, H1 |].
    destruct (Hq _ _ _ _ H1) as [-> ->]. split; assumption.
  - split; [eapply fields_rewritten_both; eassumption |].
    assert (assigned (<[i := ei']> (document w)) j url' = Some ej') as H2'
      by (rewrite assigned_insert_ne by congruence; exact H2).
    destruct (Hq _ _ _ _ H2') as [-> ->].
    destruct (Hq _ _ _ _ H1) as [-> ->]. split; assumption.
Qed.

(** What the setter stores: the string form of the value, sanitized in value
    mode, and the empty string for a file input. *)
Lemma value_setter_value (e e' : Element) (v : jsval) :
  value_setter e v = inr e' →
  ∃ s, ToDOMString v = inr s ∧ value e' = VStr (stored_string e s).
Proof.
  unfold value_setter, stored_string.
  destruct (ToDOMString v) as [x | s]; [discriminate |].
  intros He. exists s. split; [reflexivity |].
  destruct (value_mode (input_type e)); try (injection He as <-; reflexivity).
  destruct (String.eqb s ""); [injection He as <-; reflexivity | discriminate].
Qed.

Lemma dispatched_success (event : MessageEvent) (i j : nat) (id url : jsval)
    (seen : Document) :
  i ≠ j →
  let es := success_effects event i j id url seen in
  dispatched i "input" es = [mkEvent "input" true] ∧
  dispatched i "change" es = [mkEvent "change" true] ∧
  dispatched j "input" es = [mkEvent "input" true] ∧
  dispatched j "change" es = [mkEvent "change" true].
Proof.
  intros Hne es. subst es.
  unfold dispatched, success_effects, lookup_logs. cbn.
  repeat split;
    repeat match goal with
           | |- context [bool_decide ?P] => destruct (bool_decide_reflect P)
           end;
    first [reflexivity | exfalso; intuition congruence].
Qed.

Lemma filled_lookups (doc : Document) (i j : nat) (ei' ej' : Element) :
  i ≠ j → i < length doc → j < length doc →
  <[j := ej']> (<[i := ei']> doc) !! i = Some ei' ∧
  <[j := ej']> (<[i := ei']> doc) !! j = Some ej'.
Proof.
  intros Hne Hi Hj. split.
  - rewrite list_lookup_insert_ne by congruence.
    apply list_lookup_insert_eq, Hi.
  - apply list_lookup_insert_eq. rewrite length_insert. exact Hj.
Qed.

(** A run that found both fields and whose two assignments complete. *)
Lemma listener_filled (event : MessageEvent) (w : World) (i j : nat)
    (id url : jsval) (ei' ej' : Element) :
  is_selection (data event) = true →
  query image_id_selector (document w) = Some i →
  query image_url_selector (document w) = Some j →
  Get (data event) "image_id" = inr id →
  Get (data event) "image_url" = inr url →
  assigned (document w) i id = Some ei' →
  assigned (document w) j url = Some ej' →
  message_listener event w =
    Normal tt (mkWorld (<[j := ej']> (<[i := ei']> (document w)))
                 (trace w ++ success_effects event i j id url
                    (<[j := ej']> (<[i := ei']> (document w))))).
Proof.
  intros Hs Hi Hj Hid Hurl Hai Haj.
  destruct (listener_found event w i j Hs Hi Hj)
    as (id' & url' & Hid' & Hurl' & Hcases).
  assert (id' = id) as -> by congruence.
  assert (url' = url) as -> by congruence.
  destruct Hcases
    as [(x & H1 & _) | [(x & a & H1 & H2 & _) | (a & b & H1 & H2 & Hrun)]];
    [congruence | congruence |].
  assert (a = ei') as -> by congruence.
  assert (b = ej') as -> by congruence.
  exact Hrun.
Qed.

(** ** The specified properties *)

(** C1 (amended): for a message whose payload type is "image_selected",
    when both the [image_id_selected] and the [image_url_selected] inputs
    exist and the two assignments complete, the listener completes, each
    input is what its [value] setter makes of the payload's [image_id],
    respectively [image_url] (the string form of the value, sanitized for
    the input type), and on each of the two inputs one bubbling "input"
    event and one bubbling "change" event is dispatched, each exactly once
    (four dispatches in all). *)
Theorem selection_fills_and_notifies (event : MessageEvent) (w : World)
    (i j : nat) (id url : jsval) (ei' ej' : Element) :
  Get (data event) "type" = inr (VStr "image_selected") →
  query image_id_selector (document w) = Some i →
  query image_url_selector (document w) = Some j →
  Get (data event) "image_id" = inr id →
  Get (data event) "image_url" = inr url →
  assigned (document w) i id = Some ei' →
  assigned (document w) j url = Some ej' →
  ∃ w' ei ej si sj,
    message_listener event w = Normal tt w' ∧
    document w' !! i = Some ei' ∧
    document w' !! j = Some ej' ∧
    document w !! i = Some ei ∧ ToDOMString id = inr si ∧
    value_at (document w') i = Some (VStr (stored_string ei si)) ∧
    document w !! j = Some ej ∧ ToDOMString url = inr sj ∧
    value_at (document w') j = Some (VStr (stored_string ej sj)) ∧
    dispatched i "input" (emitted w w') = [mkEvent "input" true] ∧
    dispatched i "change" (emitted w w') = [mkEvent "change" true] ∧
    dispatched j "input" (emitted w w') = [mkEvent "input" true] ∧
    dispatched j "change" (emitted w w') = [mkEvent "change" true] ∧
    length (filter (λ e, is_dispatch e = true) (emitted w w')) = 4.
Proof.
  intros Ht%is_selection_true Hi Hj Hid Hurl Hai Haj.
  pose proof (fields_distinct _ _ _ Hi Hj) as Hne.
  destruct (assigned_Some _ _ _ _ Hai) as (ei & Hei & Hsi).
  destruct (assigned_Some _ _ _ _ Haj) as (ej & Hej & Hsj).
  destruct (value_setter_value _ _ _ Hsi) as (si & Hci & Hvi).
  destruct (value_setter_value _ _ _ Hsj) as (sj & Hcj & Hvj).
  eexists _, ei, ej, si, sj. split; [eapply listener_filled; eassumption |].
  rewrite emitted_app. cbn [document].
  destruct (filled_lookups (document w) i j ei' ej' Hne
              (query_in_range _ _ _ Hi) (query_in_range _ _ _ Hj)) as [Li Lj].
  destruct (dispatched_success event i j id url
              (<[j := ej']> (<[i := ei']> (document w))) Hne)
    as (D1 & D2 & D3 & D4).
  unfold value_at. rewrite Li, Lj. cbn. rewrite Hvi, Hvj.
  repeat split; assumption.
Qed.

(** C2: for a message whose payload is absent ([undefined] or [null]) or
    whose [type] is not "image_selected", the listener completes without
    touching the document: every element is as it was, no value is written
    and no event is dispatched. *)
Theorem other_message_leaves_dom (event : MessageEvent) (w : World) :
  data event = VUndefined ∨ data event = VNull ∨
  Get (data event) "type" ≠ inr (VStr "image_selected") →
  ∃ w',
    message_listener event w = Normal tt w' ∧
    document w' = document w ∧
    dom_effects (emitted w w') = [].
Proof.
  intros Hd.
  assert (is_selection (data event) = false) as Hs.
  { destruct (is_selection (data event)) eqn:Hs; [| reflexivity].
    apply is_selection_true in Hs.
    destruct Hd as [Hd | [Hd | Hd]]; [rewrite Hd in Hs .. | contradiction];
      discriminate. }
  eexists. split; [apply listener_ignored, Hs |].
  rewrite emitted_app. split; reflexivity.
Qed.

(** C3: for a message of type "image_selected", if at least one of the two
    inputs is absent from the document, the listener logs the error
    "Could not find input fields" to the console and completes normally:
    no exception leaves it. *)
Theorem missing_field_logs_error (event : MessageEvent) (w : World) :
  Get (data event) "type" = inr (VStr "image_selected") →
  query image_id_selector (document w) = None ∨
  query image_url_selector (document w) = None →
  ∃ w',
    message_listener event w = Normal tt w' ∧
    ConsoleError [AVal (VStr "Could not find input fields")] ∈ emitted w w'.
Proof.
  intros Ht%is_selection_true Hq.
  eexists. split; [apply listener_missing; assumption |].
  rewrite emitted_app. unfold missing_effects.
  apply elem_of_app. right. apply list_elem_of_singleton. reflexivity.
Qed.


(** C5 (amended): the alert is shown exactly when the success path runs to
    its end: the payload type is "image_selected", both inputs exist and
    both value assignments complete.  With another type, an absent payload,
    a missing input or an assignment that throws there is no alert. *)
Theorem alert_iff_success (event : MessageEvent) (w : World) :
  ∃ w',
    outcome (message_listener event w) = w' ∧
    (existsb is_alert (emitted w w') = true ↔
     Get (data event) "type" = inr (VStr "image_selected") ∧
     ∃ i j id url,
       query image_id_selector (document w) = Some i ∧
       query image_url_selector (document w) = Some j ∧
       Get (data event) "image_id" = inr id ∧
       Get (data event) "image_url" = inr url ∧
       is_Some (assigned (document w) i id) ∧
       is_Some (assigned (document w) j url)).
Proof.
  pose proof (is_selection_true (data event)) as Hiff.
  eexists. split; [reflexivity |].
  destruct (listener_cases event w)
    as [[Hs Hrun] | [(Hs & Hq & Hrun) | (i & j & _ & _ & Hs & Hi & Hj & _)]].
  - rewrite Hrun. cbn [outcome]. rewrite emitted_app. cbn.
    split; [discriminate |]. intros [Ht%Hiff _]. congruence.
  - rewrite Hrun. cbn [outcome]. rewrite emitted_app.
    split.
    + destruct Hq as [Hq | Hq]; rewrite Hq;
        destruct (query _ (document w)); cbn; discriminate.
    + intros (_ & i & j & id & url & Hi & Hj & _). destruct Hq; congruence.
  - destruct (listener_found event w i j Hs Hi Hj)
      as (id & url & Hid & Hurl &
          [(x & H1 & Hrun) | [(x & a & H1 & H2 & Hrun) | (a & b & H1 & H2 & Hrun)]]);
      rewrite Hrun; cbn [outcome];
      rewrite emitted_app.
    + split; [discriminate |].
      intros (_ & i' & j' & id' & url' & Hi' & Hj' & Hid' & Hurl' & [? Ha] & _).
      congruence.
    + split; [cbn; discriminate |].
      intros (_ & i' & j' & id' & url' & Hi' & Hj' & Hid' & Hurl' & _ & [? Ha]).
      congruence.
    + split; [intros _ | intros _; reflexivity].
      split; [apply Hiff, Hs |]. exists i, j, id, url.
      rewrite H1, H2. repeat split; eauto.
Qed.

(** C6, amended: for a message whose payload type is not "image_selected"
    (an absent payload included), the listener logs no error.  Its only
    effect is the console line that reports the received payload; the error
    branch belongs to selection messages with a missing input. *)
Theorem other_type_logs_no_error (event : MessageEvent) (w : World) :
  Get (data event) "type" ≠ inr (VStr "image_selected") →
  ∃ w',
    message_listener event w = Normal tt w' ∧
    emitted w w' =
      [ConsoleLog [AVal (VStr "Message received:"); AVal (data event)]] ∧
    existsb is_console_error (emitted w w') = false.
Proof.
  intros Ht.
  assert (is_selection (data event) = false) as Hs.
  { destruct (is_selection (data event)) eqn:Hs; [| reflexivity].
    apply is_selection_true in Hs. contradiction. }
  eexists. split; [apply listener_ignored, Hs |].
  rewrite emitted_app. split; reflexivity.
Qed.

(** C7 (amended): reading the payload never throws: the [type] property is
    read only from a truthy payload, so [null], [undefined] and primitive
    payloads fail the guard quietly.  A run ends with an exception exactly
    when the payload type is "image_selected", both inputs exist and one of
    the two value assignments throws; every other run completes. *)
Theorem listener_throws_only_on_assignment (event : MessageEvent) (w : World) :
  guard event w = Normal (is_selection (data event)) w ∧
  (is_Some (thrown (message_listener event w)) ↔
   Get (data event) "type" = inr (VStr "image_selected") ∧
   ∃ i j id url,
     query image_id_selector (document w) = Some i ∧
     query image_url_selector (document w) = Some j ∧
     Get (data event) "image_id" = inr id ∧
     Get (data event) "image_url" = inr url ∧
     (assigned (document w) i id = None ∨ assigned (document w) j url = None)).
Proof.
  split; [apply guard_pure |].
  pose proof (is_selection_true (data event)) as Hiff.
  destruct (listener_cases event w)
    as [[Hs Hrun] | [(Hs & Hq & Hrun) | (i & j & _ & _ & Hs & Hi & Hj & _)]].
  - rewrite Hrun. cbn. split; [intros [? ?]; discriminate |].
    intros [Ht%Hiff _]. congruence.
  - rewrite Hrun. cbn. split; [intros [? ?]; discriminate |].
    intros (_ & i & j & id & url & Hi & Hj & _). destruct Hq; congruence.
  - destruct (listener_found event w i j Hs Hi Hj)
      as (id & url & Hid & Hurl &
          [(x & H1 & Hrun) | [(x & a & H1 & H2 & Hrun) | (a & b & H1 & H2 & Hrun)]]);
      rewrite Hrun; cbn [thrown].
    + split; [intros _ | intros _; eexists; reflexivity].
      split; [apply Hiff, Hs |]. exists i, j, id, url. tauto.
    + split; [intros _ | intros _; eexists; reflexivity].
      split; [apply Hiff, Hs |]. exists i, j, id, url. tauto.
    + split; [intros [? ?]; discriminate |].
      intros (_ & i' & j' & id' & url' & Hi' & Hj' & Hid' & Hurl' & [Ha | Ha]);
        congruence.
Qed.

(** C8: what the listener does to the document depends only on the payload
    fields [type], [image_id] and [image_url] and on the document.  Two runs
    on the same document whose payloads agree on the three fields end the
    same way, in the same document, after the same value writes and event
    dispatches, whatever else the payloads carry and wherever the messages
    come from. *)
Theorem dom_effect_depends_on_three_fields
    (event1 event2 : MessageEvent) (w1 w2 : World) :
  Get (data event1) "type" = Get (data event2) "type" →
  Get (data event1) "image_id" = Get (data event2) "image_id" →
  Get (data event1) "image_url" = Get (data event2) "image_url" →
  document w1 = document w2 →
  ∃ w1' w2',
    outcome (message_listener event1 w1) = w1' ∧
    outcome (message_listener event2 w2) = w2' ∧
    thrown (message_listener event1 w1) = thrown (message_listener event2 w2) ∧
    document w1' = document w2' ∧
    dom_effects (emitted w1 w1') = dom_effects (emitted w2 w2').
Proof.
  intros Ht Hid Hurl Hdoc.
  pose proof (is_selection_agree _ _ Ht) as Hsel.
  eexists _, _. split; [reflexivity |]. split; [reflexivity |].
  destruct (listener_cases event1 w1)
    as [[Hs1 Hrun1] | [(Hs1 & Hq & Hrun1) |
                       (i & j & id & url & Hs1 & Hi & Hj & Hid1 & Hurl1 & Hrun1)]].
  - rewrite Hrun1, (listener_ignored event2 w2) by congruence.
    cbn [outcome thrown document]. rewrite !emitted_app.
    repeat split; assumption.
  - rewrite Hrun1, (listener_missing event2 w2)
      by (rewrite <- ?Hdoc; congruence || assumption).
    cbn [outcome thrown document]. rewrite !emitted_app.
    split; [reflexivity |]. split; [exact Hdoc |].
    rewrite <- Hdoc. destruct Hq as [Hq | Hq]; rewrite Hq;
      destruct (query _ (document w1)); reflexivity.
  - rewrite Hdoc in Hi, Hj.
    assert (is_selection (data event2) = true) as Hs2 by congruence.
    destruct (listener_success event2 w2 i j Hs2 Hi Hj)
      as (id2 & url2 & Hid2 & Hurl2 & Hrun2).
    assert (id2 = id) as -> by congruence.
    assert (url2 = url) as -> by congruence.
    rewrite Hrun1, Hrun2, Hdoc. unfold selection_run.
    destruct (write_value i id (document w2)) as [x | doc1];
      cbn [finish outcome thrown document].
    { rewrite !emitted_app. repeat split. }
    destruct (write_value j url doc1) as [x | doc2];
      cbn [finish outcome thrown document].
    { rewrite !emitted_app. repeat split. }
    rewrite !emitted_app. repeat split.
Qed.

(** C9 (amended): on the success path, when both assignments complete, both
    values are written before any event is dispatched, and the events
    follow in the fixed order "input", "change" on the [image_id] field,
    then "input", "change" on the [image_url] field.  The document that the
    first "input" event sees already holds both fields as the two
    assignments left them. *)
Theorem writes_precede_events (event : MessageEvent) (w : World) (i j : nat)
    (id url : jsval) (ei' ej' : Element) :
  Get (data event) "type" = inr (VStr "image_selected") →
  query image_id_selector (document w) = Some i →
  query image_url_selector (document w) = Some j →
  Get (data event) "image_id" = inr id →
  Get (data event) "image_url" = inr url →
  assigned (document w) i id = Some ei' →
  assigned (document w) j url = Some ej' →
  ∃ w' seen rest,
    message_listener event w = Normal tt w' ∧
    dom_effects (emitted w w') =
      SetValue i id :: SetValue j url ::
      Dispatch i (mkEvent "input" true) seen :: rest ∧
    seen !! i = Some ei' ∧
    seen !! j = Some ej' ∧
    Forall (λ e, is_dispatch e = true) rest ∧
    dispatch_sequence rest =
      [ (i, mkEvent "change" true);
        (j, mkEvent "input" true);
        (j, mkEvent "change" true) ].
Proof.
  intros Ht%is_selection_true Hi Hj Hid Hurl Hai Haj.
  pose proof (fields_distinct _ _ _ Hi Hj) as Hne.
  destruct (filled_lookups (document w) i j ei' ej' Hne
              (query_in_range _ _ _ Hi) (query_in_range _ _ _ Hj)) as [Li Lj].
  eexists _, (<[j := ej']> (<[i := ei']> (document w))), _.
  split; [eapply listener_filled; eassumption |].
  rewrite emitted_app.
  split; [reflexivity |]. split; [exact Li |]. split; [exact Lj |].
  split; [repeat constructor | reflexivity].
Qed.

(** C10 (amended): the listener does not validate [image_id] and
    [image_url].  For a payload object whose [type] is "image_selected",
    with both inputs present, each input is assigned the value of its field,
    which is [undefined] when the payload has no such field; when the two
    assignments complete, each input is what its setter makes of that value
    (the string "undefined" for a missing field), the four events are
    dispatched and the alert is shown. *)
Theorem no_payload_validation (event : MessageEvent) (w : World) (i j : nat)
    (props : gmap string jsval) (ei' ej' : Element) :
  data event = VObj props →
  props !! "type" = Some (VStr "image_selected") →
  query image_id_selector (document w) = Some i →
  query image_url_selector (document w) = Some j →
  assigned (document w) i (default VUndefined (props !! "image_id")) = Some ei' →
  assigned (document w) j (default VUndefined (props !! "image_url")) = Some ej' →
  ∃ w',
    message_listener event w = Normal tt w' ∧
    SetValue i (default VUndefined (props !! "image_id")) ∈ emitted w w' ∧
    SetValue j (default VUndefined (props !! "image_url")) ∈ emitted w w' ∧
    document w' !! i = Some ei' ∧
    document w' !! j = Some ej' ∧
    (props !! "image_id" = None → assigned (document w) i VUndefined = Some ei') ∧
    (props !! "image_url" = None → assigned (document w) j VUndefined = Some ej') ∧
    dispatch_sequence (emitted w w') =
      [ (i, mkEvent "input" true);
        (i, mkEvent "change" true);
        (j, mkEvent "input" true);
        (j, mkEvent "change" true) ] ∧
    existsb is_alert (emitted w w') = true.
Proof.
  intros Hd Hty Hi Hj Hai Haj.
  assert (is_selection (data event) = true) as Hs.
  { apply is_selection_true. rewrite Hd. cbn. rewrite Hty. reflexivity. }
  pose proof (fields_distinct _ _ _ Hi Hj) as Hne.
  destruct (filled_lookups (document w) i j ei' ej' Hne
              (query_in_range _ _ _ Hi) (query_in_range _ _ _ Hj)) as [Li Lj].
  eexists. split.
  { eapply listener_filled; try eassumption; rewrite Hd; reflexivity. }
  rewrite emitted_app. cbn [document].
  split; [unfold success_effects; set_solver |].
  split; [unfold success_effects; set_solver |].
  split; [exact Li |]. split; [exact Lj |].
  split; [intros Hn; rewrite Hn in Hai; exact Hai |].
  split; [intros Hn; rewrite Hn in Haj; exact Haj |].
  split; reflexivity.
Qed.

(** ** Further properties of the listener *)

(** An element and what an assignment at some position leaves in its
    place: same tag, same attributes but for [value], and the very same
    element away from the position written. *)
Lemma insert_assigned_lookup (doc : Document) (i k : nat) (v : jsval)
    (e' e : Element) :
  assigned doc i v = Some e' → doc !! k = Some e →
  ∃ e1, <[i := e']> doc !! k = Some e1 ∧
        tagName e1 = tagName e ∧
        (∀ a, a ≠ "value" → attributes e1 !! a = attributes e !! a) ∧
        (k ≠ i → e1 = e).
Proof.
  intros (e0 & He0 & Hset)%assigned_Some He.
  destruct (decide (k = i)) as [-> | Hk].
  - rewrite list_lookup_insert_eq by (eapply lookup_lt_Some, He).
    assert (e0 = e) as -> by congruence.
    exists e'. split; [reflexivity |].
    split; [eapply value_setter_tag, Hset |].
    split; [intros a Ha; eapply value_setter_attributes; eassumption |].
    congruence.
  - rewrite list_lookup_insert_ne by congruence.
    exists e. repeat split; auto.
Qed.

(** X1: the listener never adds, removes or retags an element, and the only
    attribute it may change is [value]; an element other than the two its
    selectors find is left exactly as it was, on every run. *)
Theorem listener_keeps_other_elements (event : MessageEvent) (w : World) :
  ∃ w',
    outcome (message_listener event w) = w' ∧
    length (document w') = length (document w) ∧
    ∀ k e, document w !! k = Some e →
      ∃ e', document w' !! k = Some e' ∧
            tagName e' = tagName e ∧
            (∀ a, a ≠ "value" → attributes e' !! a = attributes e !! a) ∧
            (query image_id_selector (document w) ≠ Some k →
             query image_url_selector (document w) ≠ Some k →
             e' = e).
Proof.
  eexists. split; [reflexivity |].
  destruct (listener_cases event w)
    as [[_ Hrun] | [(_ & _ & Hrun) | (i & j & _ & _ & Hs & Hi & Hj & _)]].
  1, 2: rewrite Hrun; cbn [outcome document]; split; [reflexivity |];
        intros k e He; exists e; auto.
  destruct (listener_found event w i j Hs Hi Hj)
    as (id & url & _ & _ &
        [(x & H1 & Hrun) | [(x & a & H1 & H2 & Hrun) | (a & b & H1 & H2 & Hrun)]]);
    rewrite Hrun; cbn [outcome document].
  - split; [reflexivity |]. intros k e He. exists e. auto.
  - split; [apply length_insert |]. intros k e He.
    destruct (insert_assigned_lookup _ _ _ _ _ _ H1 He) as (e1 & L1 & T1 & A1 & S1).
    exists e1. repeat split; auto. intros Hni _. apply S1. congruence.
  - split; [by rewrite !length_insert |]. intros k e He.
    destruct (insert_assigned_lookup _ _ _ _ _ _ H1 He) as (e1 & L1 & T1 & A1 & S1).
    assert (assigned (<[i := a]> (document w)) j url = Some b) as H2'.
    { rewrite assigned_insert_ne; [exact H2 |].
      intros ->. eapply fields_distinct; eauto. }
    destruct (insert_assigned_lookup _ _ _ _ _ _ H2' L1) as (e2 & L2 & T2 & A2 & S2).
    exists e2. split; [exact L2 |]. split; [congruence |].
    split; [intros c Hc; rewrite A2, A1 by exact Hc; reflexivity |].
    intros Hni Hnj. rewrite S2, S1 by congruence. reflexivity.
Qed.


(** X3: a later selection that is handled without an exception overwrites
    whatever an earlier message left in the two fields.  After any message
    and then a selection message that completes, the document is the one
    the selection message alone would have produced. *)
Theorem later_selection_overwrites (event1 event2 : MessageEvent) (w w12 : World)
    (i j : nat) :
  Get (data event2) "type" = inr (VStr "image_selected") →
  query image_id_selector (document w) = Some i →
  query image_url_selector (document w) = Some j →
  message_listener event2 (outcome (message_listener event1 w)) = Normal tt w12 →
  ∃ w2,
    message_listener event2 w = Normal tt w2 ∧
    document w12 = document w2.
Proof.
  intros Ht%is_selection_true Hi Hj Hrun12.
  destruct (listener_outcome_fields event1 w i j Hi Hj) as (HR & Hi1 & Hj1).
  set (w1 := outcome (message_listener event1 w)) in *.
  destruct (listener_found event2 w1 i j Ht Hi1 Hj1)
    as (id & url & Hid & Hurl &
        [(x & H1 & Hrun) | [(x & a & H1 & H2 & Hrun) | (a & b & H1 & H2 & Hrun)]]);
    rewrite Hrun in Hrun12; [discriminate | discriminate |].
  injection Hrun12 as <-.
  destruct HR as (Hlen & Hother & Hsame).
  rewrite Hsame in H1 by tauto. rewrite Hsame in H2 by tauto.
  eexists. split; [eapply listener_filled; eassumption |].
  cbn [document].
  apply fields_rewritten_overwrite;
    [repeat split; assumption | eapply query_in_range, Hi | eapply query_in_range, Hj].
Qed.

(** X4: handling the same message a second time leaves the document as the
    first handling left it, whatever the message and the page, and whether
    or not an assignment throws. *)
Theorem listener_idempotent_on_document (event : MessageEvent) (w : World) :
  ∃ w1 w2,
    outcome (message_listener event w) = w1 ∧
    outcome (message_listener event w1) = w2 ∧
    document w2 = document w1.
Proof.
  eexists _, _. split; [reflexivity |]. split; [reflexivity |].
  destruct (listener_cases event w)
    as [[Hs Hrun] | [(Hs & Hq & Hrun) |
                     (i & j & id & url & Hs & Hi & Hj & Hid & Hurl & _)]].
  - rewrite Hrun. cbn [outcome]. rewrite listener_ignored by exact Hs. reflexivity.
  - rewrite Hrun. cbn [outcome]. rewrite listener_missing by assumption. reflexivity.
  - destruct (listener_outcome_fields event w i j Hi Hj) as (HR & Hi1 & Hj1).
    destruct HR as (Hlen & Hother & Hsame).
    pose proof (query_in_range _ _ _ Hi) as Li.
    pose proof (query_in_range _ _ _ Hj) as Lj.
    set (w1 := outcome (message_listener event w)) in *.
    destruct (listener_found event w1 i j Hs Hi1 Hj1)
      as (id' & url' & Hid' & Hurl' & Hsecond).
    assert (id' = id) as -> by congruence.
    assert (url' = url) as -> by congruence.
    rewrite !Hsame in Hsecond by tauto.
    destruct (listener_found event w i j Hs Hi Hj)
      as (id' & url' & Hid'' & Hurl'' & Hfirst).
    assert (id' = id) as -> by congruence.
    assert (url' = url) as -> by congruence.
    destruct Hfirst
      as [(x & H1 & Hrun) | [(x & a & H1 & H2 & Hrun) | (a & b & H1 & H2 & Hrun)]];
      destruct Hsecond
        as [(x' & H1' & Hrun') | [(x' & a' & H1' & H2' & Hrun') |
                                  (a' & b' & H1' & H2' & Hrun')]];
      try congruence; rewrite Hrun'; subst w1; rewrite Hrun; cbn [outcome document].
    + reflexivity.
    + assert (a' = a) as -> by congruence. apply list_insert_insert_eq.
    + assert (a' = a) as -> by congruence.
      assert (b' = b) as -> by congruence.
      apply fields_rewritten_overwrite; [| exact Li | exact Lj].
      eapply fields_rewritten_both; try eassumption.
      eapply fields_distinct; eassumption.
Qed.

(** X5: [console.error] is called exactly when a selection message meets a
    page on which one of the two inputs is missing; in particular the
    success path logs no error. *)
Theorem error_iff_selection_with_missing_field (event : MessageEvent) (w : World) :
  ∃ w',
    outcome (message_listener event w) = w' ∧
    (existsb is_console_error (emitted w w') = true ↔
     Get (data event) "type" = inr (VStr "image_selected") ∧
     (query image_id_selector (document w) = None ∨
      query image_url_selector (document w) = None)).
Proof.
  pose proof (is_selection_true (data event)) as Hiff.
  eexists. split; [reflexivity |].
  destruct (listener_cases event w)
    as [[Hs Hrun] | [(Hs & Hq & Hrun) | (i & j & _ & _ & Hs & Hi & Hj & _)]].
  - rewrite Hrun. cbn [outcome]. rewrite emitted_app.
    split; [discriminate |]. intros [Ht%Hiff _]. congruence.
  - rewrite Hrun. cbn [outcome]. rewrite emitted_app.
    split; [intros _ | reflexivity]. split; [apply Hiff, Hs | exact Hq].
  - destruct (listener_found event w i j Hs Hi Hj)
      as (id & url & _ & _ &
          [(x & H1 & Hrun) | [(x & a & H1 & H2 & Hrun) | (a & b & H1 & H2 & Hrun)]]);
      rewrite Hrun; cbn [outcome]; rewrite emitted_app;
      (split; [discriminate |]); intros [_ [Hn | Hn]]; congruence.
Qed.

(** X6: on the success path, when no assignment throws, the alert is the
    last thing the listener does.  It is shown once, with the
    acknowledgment text, after both values have been written and all four
    events dispatched. *)
Theorem alert_comes_last (event : MessageEvent) (w : World) (i j : nat) :
  Get (data event) "type" = inr (VStr "image_selected") →
  query image_id_selector (document w) = Some i →
  query image_url_selector (document w) = Some j →
  thrown (message_listener event w) = None →
  ∃ w' before,
    message_listener event w = Normal tt w' ∧
    emitted w w' =
      before ++ [Alert "✅ Image selected! Fields have been filled."] ∧
    existsb is_alert before = false ∧
    length (filter (λ e, is_set_value e = true) before) = 2 ∧
    length (dispatch_sequence before) = 4.
Proof.
  intros Ht%is_selection_true Hi Hj Hok.
  destruct (listener_found event w i j Ht Hi Hj)
    as (id & url & _ & _ &
        [(x & H1 & Hrun) | [(x & a & H1 & H2 & Hrun) | (a & b & H1 & H2 & Hrun)]]);
    rewrite Hrun in Hok; [discriminate | discriminate |].
  eexists _, (removelast (success_effects event i j id url
                            (<[j := b]> (<[i := a]> (document w))))).
  split; [exact Hrun |]. rewrite emitted_app. repeat split.
Qed.

(** X9: when a name occurs on several inputs, only the first one in
    document order can be filled.  For a selection message that finds both
    fields, every element other than the two chosen fields is left exactly
    as it was, and any further input with one of the two names comes later
    in the document than the chosen one. *)
Theorem only_first_match_is_filled (event : MessageEvent) (w : World) (i j : nat) :
  Get (data event) "type" = inr (VStr "image_selected") →
  query image_id_selector (document w) = Some i →
  query image_url_selector (document w) = Some j →
  ∃ w',
    outcome (message_listener event w) = w' ∧
    ∀ k e, document w !! k = Some e → k ≠ i → k ≠ j →
      document w' !! k = Some e ∧
      (matches image_id_selector e → i < k) ∧
      (matches image_url_selector e → j < k).
Proof.
  intros Ht Hi Hj. eexists. split; [reflexivity |].
  intros k e He Hki Hkj.
  destruct (listener_outcome_fields event w i j Hi Hj) as ((_ & Hother & _) & _).
  rewrite Hother by assumption.
  destruct (query_Some _ _ _ Hi) as (_ & _ & _ & Hfirst_i).
  destruct (query_Some _ _ _ Hj) as (_ & _ & _ & Hfirst_j).
  split; [exact He |]. split; intros Hm.
  - destruct (decide (k < i)) as [Hlt |]; [| lia].
    exfalso. exact (Hfirst_i k e He Hlt Hm).
  - destruct (decide (k < j)) as [Hlt |]; [| lia].
    exfalso. exact (Hfirst_j k e He Hlt Hm).
Qed.

(** X10: for a selection message the result of each of the two lookups is
    written to the console before it is tested: the run's effects begin
    with the four console lines, the third and fourth of which report the
    two lookups, and everything a branch does (the error, the writes, the
    events, the alert) comes after them. *)
Theorem lookups_are_logged (event : MessageEvent) (w : World) :
  Get (data event) "type" = inr (VStr "image_selected") →
  ∃ w' rest,
    outcome (message_listener event w) = w' ∧
    emitted w w' =
      [ ConsoleLog [AVal (VStr "Message received:"); AVal (data event)];
        ConsoleLog [AVal (VStr "Processing image selection...")];
        ConsoleLog [AVal (VStr "Image ID field:");
                    ANode (query image_id_selector (document w))];
        ConsoleLog [AVal (VStr "Image URL field:");
                    ANode (query image_url_selector (document w))] ] ++ rest.
Proof.
  intros Ht%is_selection_true.
  destruct (listener_cases event w)
    as [[Hs _] | [(_ & _ & Hrun) | (i & j & _ & _ & Hs & Hi & Hj & _)]];
    [congruence | |].
  - eexists _, _. split; [reflexivity |].
    rewrite Hrun. cbn [outcome]. rewrite emitted_app. reflexivity.
  - destruct (listener_found event w i j Hs Hi Hj)
      as (id & url & _ & _ &
          [(x & H1 & Hrun) | [(x & a & H1 & H2 & Hrun) | (a & b & H1 & H2 & Hrun)]]).
    + exists (outcome (message_listener event w)), [].
      split; [reflexivity |].
      rewrite Hrun, Hi, Hj. cbn [outcome]. rewrite emitted_app. reflexivity.
    + exists (outcome (message_listener event w)), [SetValue i id].
      split; [reflexivity |].
      rewrite Hrun, Hi, Hj. cbn [outcome]. rewrite emitted_app. reflexivity.
    + eexists (outcome (message_listener event w)), _.
      split; [reflexivity |].
      rewrite Hrun, Hi, Hj. cbn [outcome]. rewrite emitted_app.
      unfold success_effects, lookup_logs. reflexivity.
Qed.

(** X11: every message is logged before anything is checked.  Whatever the
    payload, the first effect of a run is the console line
    "Message received:" with the payload itself, and a run only appends to
    what happened before. *)
Theorem payload_is_logged_first (event : MessageEvent) (w : World) :
  ∃ w' rest,
    outcome (message_listener event w) = w' ∧
    trace w' =
      trace w ++
      ConsoleLog [AVal (VStr "Message received:"); AVal (data event)] :: rest.
Proof.
  destruct (listener_cases event w)
    as [[_ Hrun] | [(_ & _ & Hrun) | (i & j & _ & _ & Hs & Hi & Hj & _)]].
  1, 2: rewrite Hrun; eexists _, _; split; reflexivity.
  destruct (listener_found event w i j Hs Hi Hj)
    as (id & url & _ & _ &
        [(x & H1 & Hrun) | [(x & a & H1 & H2 & Hrun) | (a & b & H1 & H2 & Hrun)]]);
    rewrite Hrun; eexists _, _; split; reflexivity.
Qed.

(** ** The listener on the samples *)

(** The sample runs are the same whatever the two platform functions are. *)

Example run_sample_selection :
  message_listener sample_selection (fresh sample_form) =
  Normal tt (mkWorld
    [ mkElement "form" {["id" := "order"]} VUndefined;
      mkElement "input" {["name" := "email"]} (VStr "a@b.c");
      mkElement "input" {["name" := "image_id_selected"]} (VStr "img-42");
      mkElement "input" {["name" := "image_url_selected"]}
        (VStr "https://cdn.example/42.png") ]
    (success_effects sample_selection 2 3 (VStr "img-42")
       (VStr "https://cdn.example/42.png")
       [ mkElement "form" {["id" := "order"]} VUndefined;
         mkElement "input" {["name" := "email"]} (VStr "a@b.c");
         mkElement "input" {["name" := "image_id_selected"]} (VStr "img-42");
         mkElement "input" {["name" := "image_url_selected"]}
           (VStr "https://cdn.example/42.png") ])).
Proof. vm_compute. reflexivity. Qed.

Example run_sample_no_url :
  message_listener sample_selection (fresh sample_form_no_url) =
  Normal tt (mkWorld sample_form_no_url
    [ ConsoleLog [AVal (VStr "Message received:"); AVal (data sample_selection)];
      ConsoleLog [AVal (VStr "Processing image selection...")];
      ConsoleLog [AVal (VStr "Image ID field:"); ANode (Some 2)];
      ConsoleLog [AVal (VStr "Image URL field:"); ANode None];
      ConsoleError [AVal (VStr "Could not find input fields")] ]).
Proof. vm_compute. reflexivity. Qed.

Example run_sample_null :
  message_listener sample_null (fresh sample_form) =
  Normal tt (mkWorld sample_form
    [ ConsoleLog [AVal (VStr "Message received:"); AVal VNull] ]).
Proof. vm_compute. reflexivity. Qed.

(** A file input refuses the value: the run throws at the first assignment,
    after the four console lines, and nothing is written or dispatched. *)
Example run_sample_file :
  message_listener sample_selection (fresh sample_form_file) =
  Throw (DOMException "InvalidStateError")
    (mkWorld sample_form_file (lookup_logs sample_selection (Some 2) (Some 3))).
Proof. vm_compute. reflexivity. Qed.

(** An [image_id] without a string form: the same, with a TypeError. *)
Example run_sample_unprintable :
  message_listener sample_selection_unprintable (fresh sample_form) =
  Throw (TypeError "Cannot convert object to primitive value")
    (mkWorld sample_form
       (lookup_logs sample_selection_unprintable (Some 2) (Some 3))).
Proof. vm_compute. reflexivity. Qed.

(** A text input drops the line break of the value it is given. *)
Example run_sample_newline :
  value_at (document (outcome
    (message_listener sample_selection_newline (fresh sample_form)))) 2 = Some (VStr "ab").
Proof. vm_compute. reflexivity. Qed.

(** A number is stored in its decimal form and [null] as the empty
    string. *)
Example run_sample_number :
  let doc' := document (outcome
    (message_listener sample_selection_number (fresh sample_form))) in
  value_at doc' 2 = Some (VStr (strip_newlines (NumberToString 42%float))) ∧
  value_at doc' 3 = Some (VStr "").
Proof. vm_compute. split; reflexivity. Qed.

(** A hidden input keeps the value in its [value] attribute. *)
Example run_sample_hidden :
  document (outcome
    (message_listener sample_selection (fresh sample_form_hidden))) !! 2 =
  Some (mkElement "input"
          {["type" := "hidden"; "name" := "image_id_selected";
            "value" := "img-42"]} (VStr "img-42")).
Proof. vm_compute. reflexivity. Qed.

(** Without the truthiness test the read of [type] would throw on an absent
    payload. *)
Example unguarded_read_throws (w : World) :
  lift (Get (data sample_null) "type") w =
  Throw (TypeError "Cannot read properties of null") w.
Proof. reflexivity. Qed.

(** Falsy and primitive payloads fail the guard without a throw. *)
Example guard_on_primitives (w : World) :
  Forall (λ d, guard (mkMessageEvent d "" "") w = Normal false w)
    [ VUndefined; VNull; VBool false; VBool true; VNum 0%float;
      VNum 3%float; VBigInt 0; VStr ""; VStr "image_selected"; VObj ∅ ].
Proof. repeat constructor. Qed.


End Platform.

(** ** The specified properties on the samples *)

(** The closed statements below fix the two platform functions to the
    sample ones; by the examples above the runs they are about do not
    depend on that choice. *)

(** C1, as claimed, fails: on the form whose first field is a file input the
    assignment throws, so no value is set and no event is dispatched. *)
Lemma selection_fills_counterexample :
  ¬ (∀ (event : MessageEvent) (w : World) (i j : nat),
       Get (data event) "type" = inr (VStr "image_selected") →
       query image_id_selector (document w) = Some i →
       query image_url_selector (document w) = Some j →
       ∃ w' id url,
         message_listener sample_number_format sample_sanitizer event w
           = Normal tt w' ∧
         Get (data event) "image_id" = inr id ∧
         Get (data event) "image_url" = inr url ∧
         value_at (document w') i = Some id ∧
         value_at (document w') j = Some url ∧
         dispatched i "input" (emitted w w') = [mkEvent "input" true] ∧
         dispatched i "change" (emitted w w') = [mkEvent "change" true] ∧
         dispatched j "input" (emitted w w') = [mkEvent "input" true] ∧
         dispatched j "change" (emitted w w') = [mkEvent "change" true]).
Proof.
  intros H.
  destruct (H sample_selection (fresh sample_form_file) 2 3
              ltac:(vm_compute; reflexivity) ltac:(vm_compute; reflexivity)
              ltac:(vm_compute; reflexivity)) as (w' & id & url & Hrun & _).
  vm_compute in Hrun. discriminate.
Qed.

Lemma selection_fills_and_notifies_witness :
  ∃ w' ei ej si sj,
    message_listener sample_number_format sample_sanitizer
      sample_selection (fresh sample_form) = Normal tt w' ∧
    document w' !! 2 =
      Some (mkElement "input" {["name" := "image_id_selected"]} (VStr "img-42")) ∧
    document w' !! 3 =
      Some (mkElement "input" {["name" := "image_url_selected"]}
              (VStr "https://cdn.example/42.png")) ∧
    document (fresh sample_form) !! 2 = Some ei ∧
    ToDOMString sample_number_format (VStr "img-42") = inr si ∧
    value_at (document w') 2 =
      Some (VStr (stored_string sample_sanitizer ei si)) ∧
    document (fresh sample_form) !! 3 = Some ej ∧
    ToDOMString sample_number_format (VStr "https://cdn.example/42.png")
      = inr sj ∧
    value_at (document w') 3 =
      Some (VStr (stored_string sample_sanitizer ej sj)) ∧
    dispatched 2 "input" (emitted (fresh sample_form) w') = [mkEvent "input" true] ∧
    dispatched 2 "change" (emitted (fresh sample_form) w') = [mkEvent "change" true] ∧
    dispatched 3 "input" (emitted (fresh sample_form) w') = [mkEvent "input" true] ∧
    dispatched 3 "change" (emitted (fresh sample_form) w') = [mkEvent "change" true] ∧
    length (filter (λ e, is_dispatch e = true) (emitted (fresh sample_form) w')) = 4.
Proof.
  apply (selection_fills_and_notifies sample_number_format sample_sanitizer
           sample_selection (fresh sample_form) 2 3
           (VStr "img-42") (VStr "https://cdn.example/42.png"));
    vm_compute; reflexivity.
Defined.

Lemma other_message_leaves_dom_witness :
  ∃ w',
    message_listener sample_number_format sample_sanitizer
      sample_other (fresh sample_form) = Normal tt w' ∧
    document w' = document (fresh sample_form) ∧
    dom_effects (emitted (fresh sample_form) w') = [].
Proof.
  apply (other_message_leaves_dom sample_number_format sample_sanitizer
           sample_other (fresh sample_form)).
  right. right. vm_compute. discriminate.
Defined.

Lemma missing_field_logs_error_witness :
  ∃ w',
    message_listener sample_number_format sample_sanitizer
      sample_selection (fresh sample_form_no_url) = Normal tt w' ∧
    ConsoleError [AVal (VStr "Could not find input fields")]
      ∈ emitted (fresh sample_form_no_url) w'.
Proof.
  apply (missing_field_logs_error sample_number_format sample_sanitizer
           sample_selection (fresh sample_form_no_url)).
  - vm_compute. reflexivity.
  - right. vm_compute. reflexivity.
Defined.


(** C5, as claimed, fails: on the form with the file input the type is
    "image_selected" and both inputs exist, yet no alert is shown. *)
Lemma alert_iff_both_exist_counterexample :
  ¬ (∀ (event : MessageEvent) (w : World),
       existsb is_alert
         (emitted w (outcome (message_listener sample_number_format
                                sample_sanitizer event w))) = true ↔
       Get (data event) "type" = inr (VStr "image_selected") ∧
       is_Some (query image_id_selector (document w)) ∧
       is_Some (query image_url_selector (document w))).
Proof.
  intros H.
  destruct (H sample_selection (fresh sample_form_file)) as [_ Hback].
  assert (existsb is_alert
            (emitted (fresh sample_form_file)
               (outcome (message_listener sample_number_format sample_sanitizer
                           sample_selection (fresh sample_form_file)))) = true)
    as Halert.
  { apply Hback. split; [vm_compute; reflexivity |].
    split; [exists 2 | exists 3]; vm_compute; reflexivity. }
  vm_compute in Halert. discriminate.
Qed.

(** C6, as claimed, fails: a message of another type makes the listener log
    no error.  The message [{ type: "resize", height: 480 }] on the sample
    form leaves a trace without any [console.error]. *)
Lemma other_type_logs_error_counterexample :
  ¬ (∀ (event : MessageEvent) (w w' : World),
       Get (data event) "type" ≠ inr (VStr "image_selected") →
       message_listener sample_number_format sample_sanitizer event w
         = Normal tt w' →
       existsb is_console_error (emitted w w') = true).
Proof.
  intros H.
  specialize (H sample_other (fresh sample_form) _
                ltac:(vm_compute; discriminate) eq_refl).
  vm_compute in H. discriminate.
Qed.

Lemma other_type_logs_no_error_witness :
  ∃ w',
    message_listener sample_number_format sample_sanitizer
      sample_null (fresh sample_form) = Normal tt w' ∧
    emitted (fresh sample_form) w' =
      [ConsoleLog [AVal (VStr "Message received:"); AVal (data sample_null)]] ∧
    existsb is_console_error (emitted (fresh sample_form) w') = false.
Proof.
  apply (other_type_logs_no_error sample_number_format sample_sanitizer
           sample_null (fresh sample_form)).
  vm_compute. discriminate.
Defined.

(** C7, as claimed, fails: the payload
    [{ type: "image_selected", image_id: { toString: 1 }, image_url: ... }]
    on the sample form makes the listener throw a TypeError. *)
Lemma listener_total_counterexample :
  ¬ (∀ (event : MessageEvent) (w : World),
       ∃ w', message_listener sample_number_format sample_sanitizer event w
               = Normal tt w').
Proof.
  intros H.
  destruct (H sample_selection_unprintable (fresh sample_form)) as [w' Hrun].
  vm_compute in Hrun. discriminate.
Qed.

Lemma dom_effect_depends_on_three_fields_witness :
  ∃ w1' w2',
    outcome (message_listener sample_number_format sample_sanitizer
               sample_selection (fresh sample_form)) = w1' ∧
    outcome (message_listener sample_number_format sample_sanitizer
               sample_selection_extra (mkWorld sample_form [Alert "earlier"]))
      = w2' ∧
    thrown (message_listener sample_number_format sample_sanitizer
              sample_selection (fresh sample_form)) =
    thrown (message_listener sample_number_format sample_sanitizer
              sample_selection_extra (mkWorld sample_form [Alert "earlier"])) ∧
    document w1' = document w2' ∧
    dom_effects (emitted (fresh sample_form) w1') =
    dom_effects (emitted (mkWorld sample_form [Alert "earlier"]) w2').
Proof.
  apply (dom_effect_depends_on_three_fields sample_number_format sample_sanitizer
           sample_selection sample_selection_extra (fresh sample_form)
           (mkWorld sample_form [Alert "earlier"]));
    vm_compute; reflexivity.
Defined.

(** C9, as claimed, fails: on the form with the file input no value is
    written and no event is dispatched. *)
Lemma writes_precede_events_counterexample :
  ¬ (∀ (event : MessageEvent) (w : World) (i j : nat),
       Get (data event) "type" = inr (VStr "image_selected") →
       query image_id_selector (document w) = Some i →
       query image_url_selector (document w) = Some j →
       ∃ w' id url seen rest,
         message_listener sample_number_format sample_sanitizer event w
           = Normal tt w' ∧
         Get (data event) "image_id" = inr id ∧
         Get (data event) "image_url" = inr url ∧
         dom_effects (emitted w w') =
           SetValue i id :: SetValue j url ::
           Dispatch i (mkEvent "input" true) seen :: rest ∧
         value_at seen i = Some id ∧
         value_at seen j = Some url ∧
         dispatch_sequence rest =
           [ (i, mkEvent "change" true);
             (j, mkEvent "input" true);
             (j, mkEvent "change" true) ]).
Proof.
  intros H.
  destruct (H sample_selection (fresh sample_form_file) 2 3
              ltac:(vm_compute; reflexivity) ltac:(vm_compute; reflexivity)
              ltac:(vm_compute; reflexivity))
    as (w' & id & url & seen & rest & Hrun & _).
  vm_compute in Hrun. discriminate.
Qed.

Lemma writes_precede_events_witness :
  ∃ w' seen rest,
    message_listener sample_number_format sample_sanitizer
      sample_selection_newline (fresh sample_form) = Normal tt w' ∧
    dom_effects (emitted (fresh sample_form) w') =
      SetValue 2 (VStr ("a" +:+ String (Ascii.ascii_of_nat 10) "b")) ::
      SetValue 3 (VStr "https://cdn.example/42.png") ::
      Dispatch 2 (mkEvent "input" true) seen :: rest ∧
    seen !! 2 =
      Some (mkElement "input" {["name" := "image_id_selected"]} (VStr "ab")) ∧
    seen !! 3 =
      Some (mkElement "input" {["name" := "image_url_selected"]}
              (VStr "https://cdn.example/42.png")) ∧
    Forall (λ e, is_dispatch e = true) rest ∧
    dispatch_sequence rest =
      [ (2, mkEvent "change" true);
        (3, mkEvent "input" true);
        (3, mkEvent "change" true) ].
Proof.
  apply (writes_precede_events sample_number_format sample_sanitizer
           sample_selection_newline (fresh sample_form) 2 3);
    vm_compute; reflexivity.
Defined.

(** C10, as claimed, fails: without an [image_id] the first field is
    assigned [undefined], whose string form the file input refuses, so the
    success path does not run to its end. *)
Lemma no_payload_validation_counterexample :
  ¬ (∀ (event : MessageEvent) (w : World) (i j : nat)
       (props : gmap string jsval),
       data event = VObj props →
       props !! "type" = Some (VStr "image_selected") →
       query image_id_selector (document w) = Some i →
       query image_url_selector (document w) = Some j →
       ∃ w',
         message_listener sample_number_format sample_sanitizer event w
           = Normal tt w' ∧
         SetValue i (default VUndefined (props !! "image_id")) ∈ emitted w w' ∧
         SetValue j (default VUndefined (props !! "image_url")) ∈ emitted w w' ∧
         dispatch_sequence (emitted w w') =
           [ (i, mkEvent "input" true);
             (i, mkEvent "change" true);
             (j, mkEvent "input" true);
             (j, mkEvent "change" true) ] ∧
         existsb is_alert (emitted w w') = true).
Proof.
  intros H.
  destruct (H sample_selection_no_id (fresh sample_form_file) 2 3 props_no_id
              eq_refl ltac:(vm_compute; reflexivity)
              ltac:(vm_compute; reflexivity) ltac:(vm_compute; reflexivity))
    as (w' & Hrun & _).
  vm_compute in Hrun. discriminate.
Qed.

Lemma no_payload_validation_witness :
  props_no_id !! "image_id" = None ∧
  ∃ w',
    message_listener sample_number_format sample_sanitizer
      sample_selection_no_id (fresh sample_form) = Normal tt w' ∧
    SetValue 2 (default VUndefined (props_no_id !! "image_id"))
      ∈ emitted (fresh sample_form) w' ∧
    SetValue 3 (default VUndefined (props_no_id !! "image_url"))
      ∈ emitted (fresh sample_form) w' ∧
    document w' !! 2 =
      Some (mkElement "input" {["name" := "image_id_selected"]}
              (VStr "undefined")) ∧
    document w' !! 3 =
      Some (mkElement "input" {["name" := "image_url_selected"]}
              (VStr "https://cdn.example/42.png")) ∧
    (props_no_id !! "image_id" = None →
     assigned sample_number_format sample_sanitizer
       (document (fresh sample_form)) 2 VUndefined =
     Some (mkElement "input" {["name" := "image_id_selected"]}
             (VStr "undefined"))) ∧
    (props_no_id !! "image_url" = None →
     assigned sample_number_format sample_sanitizer
       (document (fresh sample_form)) 3 VUndefined =
     Some (mkElement "input" {["name" := "image_url_selected"]}
             (VStr "https://cdn.example/42.png"))) ∧
    dispatch_sequence (emitted (fresh sample_form) w') =
      [ (2, mkEvent "input" true);
        (2, mkEvent "change" true);
        (3, mkEvent "input" true);
        (3, mkEvent "change" true) ] ∧
    existsb is_alert (emitted (fresh sample_form) w') = true.
Proof.
  split; [vm_compute; reflexivity |].
  apply (no_payload_validation sample_number_format sample_sanitizer
           sample_selection_no_id (fresh sample_form) 2 3 props_no_id);
    vm_compute; reflexivity.
Defined.

Lemma later_selection_overwrites_witness :
  ∃ w2,
    message_listener sample_number_format sample_sanitizer
      sample_selection_2 (fresh sample_form) = Normal tt w2 ∧
    document
      (outcome (message_listener sample_number_format sample_sanitizer
                  sample_selection_2
                  (outcome (message_listener sample_number_format
                              sample_sanitizer sample_selection
                              (fresh sample_form))))) =
    document w2.
Proof.
  apply (later_selection_overwrites sample_number_format sample_sanitizer
           sample_selection sample_selection_2 (fresh sample_form)
           (outcome (message_listener sample_number_format sample_sanitizer
                       sample_selection_2
                       (outcome (message_listener sample_number_format
                                   sample_sanitizer sample_selection
                                   (fresh sample_form))))) 2 3);
    vm_compute; reflexivity.
Defined.

Lemma alert_comes_last_witness :
  ∃ w' before,
    message_listener sample_number_format sample_sanitizer
      sample_selection (fresh sample_form) = Normal tt w' ∧
    emitted (fresh sample_form) w' =
      before ++ [Alert "✅ Image selected! Fields have been filled."] ∧
    existsb is_alert before = false ∧
    length (filter (λ e, is_set_value e = true) before) = 2 ∧
    length (dispatch_sequence before) = 4.
Proof.
  apply (alert_comes_last sample_number_format sample_sanitizer
           sample_selection (fresh sample_form) 2 3);
    vm_compute; reflexivity.
Defined.

Lemma only_first_match_is_filled_witness :
  ∃ w',
    outcome (message_listener sample_number_format sample_sanitizer
               sample_selection (fresh sample_form_duplicates)) = w' ∧
    ∀ k e, document (fresh sample_form_duplicates) !! k = Some e → k ≠ 1 → k ≠ 2 →
      document w' !! k = Some e ∧
      (matches image_id_selector e → 1 < k) ∧
      (matches image_url_selector e → 2 < k).
Proof.
  apply (only_first_match_is_filled sample_number_format sample_sanitizer
           sample_selection (fresh sample_form_duplicates) 1 2);
    vm_compute; reflexivity.
Defined.

Lemma lookups_are_logged_witness :
  ∃ w' rest,
    outcome (message_listener sample_number_format sample_sanitizer
               sample_selection (fresh sample_form_no_url)) = w' ∧
    emitted (fresh sample_form_no_url) w' =
      [ ConsoleLog [AVal (VStr "Message received:"); AVal (data sample_selection)];
        ConsoleLog [AVal (VStr "Processing image selection...")];
        ConsoleLog [AVal (VStr "Image ID field:");
                    ANode (query image_id_selector
                             (document (fresh sample_form_no_url)))];
        ConsoleLog [AVal (VStr "Image URL field:");
                    ANode (query image_url_selector
                             (document (fresh sample_form_no_url)))] ] ++ rest.
Proof.
  apply (lookups_are_logged sample_number_format sample_sanitizer
           sample_selection (fresh sample_form_no_url)).
  vm_compute. reflexivity.
Defined.
